(** * Lighthouse report v2: score aggregation and report rendering

    A shallow embedding of [ReportGeneratorV2] (the report generator:
    [arithmeticMean], [replaceStrings], [generateReportJson]) and of
    [report-renderer.js] ([calculateRating], [DOM], [ReportRenderer]).

    JavaScript numbers are IEEE 754 binary64 values: they are modelled by
    [spec_float] at precision 53 and maximal exponent 1024, whose operations
    are the (axiom-free, executable) specification of binary64 arithmetic.
    Thrown exceptions are modelled in the error monad [sum Exception]. *)

From Stdlib Require Import ZArith NArith PArith List String Ascii Bool Lia.
From Stdlib Require Import DecimalString.
From Stdlib Require Import Floats.SpecFloat.
From ExtLib Require Import Structures.Monad Structures.MonadExc.
From ExtLib Require Import Data.Monads.EitherMonad.
Import ListNotations.
Import MonadNotation.

Local Open Scope string_scope.
Local Open Scope monad_scope.

Set Warnings "-register-all".

(** ** JavaScript numbers and values *)

Module JS.

Definition number := spec_float.

(** Binary64: 53 bits of precision, infinities at exponent 1024. *)
Definition prec : Z := 53.
Definition emax : Z := 1024.

Definition NaN : number := S754_nan.
Definition Infinity : number := S754_infinity false.
Definition neg_Infinity : number := S754_infinity true.
Definition zero : number := S754_zero false.
Definition neg_zero : number := S754_zero true.

(** The Number value of a mathematical integer (round to nearest, ties to
    even; exact up to 2^53). *)
Definition Z2SF (z : Z) : number := binary_normalize prec emax z 0 false.

Definition num_add : number -> number -> number := SFadd prec emax.
Definition num_mul : number -> number -> number := SFmul prec emax.
Definition num_div : number -> number -> number := SFdiv prec emax.

(** [x === y], [x < y] and [x >= y] on numbers: every comparison with NaN
    is false and the two zeros are equal. *)
Definition strict_eq (x y : number) : bool := SFeqb x y.
Definition num_lt (x y : number) : bool := SFltb x y.
Definition num_ge (x y : number) : bool := SFleb y x.

(** ToBoolean on a number: [+0], [-0] and [NaN] are falsy. *)
Definition truthy (x : number) : bool :=
  match x with
  | S754_zero _ | S754_nan => false
  | _ => true
  end.

(** [a || b] on numbers. *)
Definition num_or (a b : number) : number := if truthy a then a else b.

Definition is_nan (x : number) : bool :=
  match x with S754_nan => true | _ => false end.

Definition is_zero (x : number) : bool :=
  match x with S754_zero _ => true | _ => false end.

Definition is_infinite (x : number) : bool :=
  match x with S754_infinity _ => true | _ => false end.

(** A finite number: neither NaN nor an infinity ([Number.isFinite]). *)
Definition is_finite (x : number) : bool :=
  match x with S754_zero _ | S754_finite _ _ _ => true | _ => false end.

(** A number whose value is a mathematical integer. *)
Definition is_integer (x : number) : bool :=
  match x with
  | S754_zero _ => true
  | S754_finite _ m e => (0 <=? e)%Z || (Z.pos m mod 2 ^ (- e) =? 0)%Z
  | _ => false
  end.

(** [Math.round]: the integer closest to [x], ties going toward +Infinity;
    NaN, the zeros and the infinities are returned unchanged, and a value
    in [-0.5, 0) rounds to [-0]. *)
Definition Math_round (x : number) : number :=
  match x with
  | S754_finite s m e =>
      if (0 <=? e)%Z then x
      else
        let d := (2 ^ (- e))%Z in
        let n := ((2 * cond_Zopp s (Z.pos m) + d) / (2 * d))%Z in
        if (n =? 0)%Z then S754_zero s else Z2SF n
  | _ => x
  end.

(** *** StringToNumber

    Strings are sequences of code units; [ascii] stands for a code unit
    below 256. *)

Definition isStrWhiteSpaceChar (c : ascii) : bool :=
  let n := N_of_ascii c in
  ((9 <=? n) && (n <=? 13) || (n =? 32) || (n =? 160))%N.

Fixpoint trimStart (s : list ascii) : list ascii :=
  match s with
  | c :: r => if isStrWhiteSpaceChar c then trimStart r else s
  | [] => []
  end.

Definition trim (s : list ascii) : list ascii :=
  rev (trimStart (rev (trimStart s))).

(** The value of a digit in the given radix (at most 16). *)
Definition digitValue (radix : N) (c : ascii) : option N :=
  let n := N_of_ascii c in
  let v :=
    if ((48 <=? n) && (n <=? 57))%N then Some (n - 48)%N
    else if ((97 <=? n) && (n <=? 102))%N then Some (n - 87)%N
    else if ((65 <=? n) && (n <=? 70))%N then Some (n - 55)%N
    else None in
  match v with
  | Some d => if (d <? radix)%N then Some d else None
  | None => None
  end.

(** The longest prefix of digits, most significant first, and the rest. *)
Fixpoint spanDigits (radix : N) (s : list ascii) : list N * list ascii :=
  match s with
  | c :: r =>
      match digitValue radix c with
      | Some d => let '(ds, rest) := spanDigits radix r in (d :: ds, rest)
      | None => ([], s)
      end
  | [] => ([], [])
  end.

Definition digitsValue (radix : N) (ds : list N) : N :=
  fold_left (fun acc d => (radix * acc + d)%N) ds 0%N.

(** BinaryIntegerLiteral, OctalIntegerLiteral and HexIntegerLiteral. *)
Definition parseNonDecimal (s : list ascii) : option N :=
  match s with
  | "0"%char :: p :: r =>
      let radix :=
        if (p =? "x")%char || (p =? "X")%char then Some 16%N
        else if (p =? "o")%char || (p =? "O")%char then Some 8%N
        else if (p =? "b")%char || (p =? "B")%char then Some 2%N
        else None in
      match radix with
      | Some b =>
          match spanDigits b r with
          | ((_ :: _) as ds, []) => Some (digitsValue b ds)
          | _ => None
          end
      | None => None
      end
  | _ => None
  end.

(** ExponentPart, after the digits of the mantissa. *)
Definition parseExponent (s : list ascii) : option Z :=
  match s with
  | [] => Some 0%Z
  | c :: r =>
      if (c =? "e")%char || (c =? "E")%char then
        let '(neg, r') :=
          match r with
          | "+"%char :: t => (false, t)
          | "-"%char :: t => (true, t)
          | _ => (false, r)
          end in
        match spanDigits 10 r' with
        | ((_ :: _) as ds, []) =>
            Some (cond_Zopp neg (Z.of_N (digitsValue 10 ds)))
        | _ => None
        end
      else None
  end.

(** StrUnsignedDecimalLiteral other than [Infinity]: the decimal mantissa
    and the power of ten it is scaled by. *)
Definition parseUnsignedDecimal (s : list ascii) : option (N * Z) :=
  let '(ip, r1) := spanDigits 10 s in
  let '(fp, r2) :=
    match r1 with
    | "."%char :: r => spanDigits 10 r
    | _ => ([], r1)
    end in
  match (ip ++ fp)%list with
  | [] => None
  | ds =>
      match parseExponent r2 with
      | Some e => Some (digitsValue 10 ds, (e - Z.of_nat (List.length fp))%Z)
      | None => None
      end
  end.

(** The Number value of [m * 10^e], correctly rounded. *)
Definition decimalToNumber (neg : bool) (m : N) (e : Z) : number :=
  match m with
  | N0 => S754_zero neg
  | Npos p =>
      if (0 <=? e)%Z then
        binary_normalize prec emax (cond_Zopp neg (Z.pos p * 10 ^ e)) 0 false
      else
        let '(q, e', l) :=
          SFdiv_core_binary prec emax (Z.pos p) 0 (10 ^ (- e)) 0 in
        binary_round_aux prec emax neg q e' l
  end.

Definition StringToNumber (str : string) : number :=
  let s := trim (list_ascii_of_string str) in
  match s with
  | [] => zero
  | _ =>
      match parseNonDecimal s with
      | Some n => Z2SF (Z.of_N n)
      | None =>
          let '(neg, u) :=
            match s with
            | "+"%char :: r => (false, r)
            | "-"%char :: r => (true, r)
            | _ => (false, s)
            end in
          if (string_of_list_ascii u =? "Infinity")%string
          then S754_infinity neg
          else
            match parseUnsignedDecimal u with
            | Some (m, e) => decimalToNumber neg m e
            | None => NaN
            end
      end
  end.

(** The values a score or weight field can hold; an absent field reads as
    [undefined]. *)
Inductive value :=
| VUndefined
| VNull
| VBoolean (b : bool)
| VNumber (n : number)
| VString (s : string).

(** [Number(v)]. *)
Definition ToNumber (v : value) : number :=
  match v with
  | VUndefined => NaN
  | VNull => zero
  | VBoolean true => Z2SF 1
  | VBoolean false => zero
  | VNumber n => n
  | VString s => StringToNumber s
  end.

End JS.

Import JS.

(** ** Exceptions and objects *)

(** What the code throws: an [Error] made by [new Error(message)], or a
    [TypeError] raised by the engine (reading a property of [undefined],
    iterating a value that is not iterable). *)
Inductive Exception :=
| Error (message : string)
| TypeError (message : string).

Definition M : Type -> Type := sum Exception.

Section ArrayMap.
Context {A B : Type}.
Variable f : A -> M B.

(** [array.map(f)], and a [for (const x of array)] loop collecting what
    each turn produces: the first exception ends the loop. *)
Fixpoint array_map (items : list A) : M (list B) :=
  match items with
  | [] => ret []
  | x :: rest =>
      y <- f x ;;
      ys <- array_map rest ;;
      ret (y :: ys)
  end.
End ArrayMap.

(** An object used as a map: its own properties, in the order
    [Object.keys] enumerates them (keys that are array indices first, in
    ascending order, then the other keys in the order they were inserted).
    A key occurs once in an object; in a list that repeats a key the first
    occurrence is the one a lookup finds. *)
Definition JSObject (V : Type) : Type := list (string * V).

Definition Object_keys {V} (o : JSObject V) : list string := map fst o.

Fixpoint get_property {V} (o : JSObject V) (key : string) : option V :=
  match o with
  | [] => None
  | (k, v) :: rest => if (k =? key)%string then Some v else get_property rest key
  end.

(** ** The report data model *)

(** [DetailsJSON]: [{type, text, header, items}], the last three optional. *)
Inductive DetailsJSON :=
| Details (d_type : string) (d_text : option string)
          (d_header : option DetailsJSON) (d_items : option (list DetailsJSON)).

Definition details_type (d : DetailsJSON) : string :=
  match d with Details t _ _ _ => t end.
Definition details_text (d : DetailsJSON) : option string :=
  match d with Details _ t _ _ => t end.
Definition details_header (d : DetailsJSON) : option DetailsJSON :=
  match d with Details _ _ h _ => h end.
Definition details_items (d : DetailsJSON) : option (list DetailsJSON) :=
  match d with Details _ _ _ i => i end.

Record RawAuditResult := {
  result_score : value;
  result_description : string;
  result_displayValue : option string;
  result_optimalValue : option string;
  result_helpText : string;
  result_details : option DetailsJSON
}.

Record AuditDefinition := {
  def_id : string;
  def_weight : value
}.

Record CategoryDefinition := {
  def_name : string;
  def_description : string;
  def_category_weight : value;
  def_audits : list AuditDefinition
}.

Record Config := {
  config_categories : JSObject CategoryDefinition
}.

(** [AuditJSON]: the audit definition with [result] and [score] set. *)
Record AuditJSON := {
  audit_id : string;
  audit_weight : value;
  audit_score : number;
  audit_result : RawAuditResult
}.

(** [CategoryJSON]: the category definition with [audits] and [score] set. *)
Record CategoryJSON := {
  category_name : string;
  category_description : string;
  category_weight : value;
  category_score : number;
  category_audits : list AuditJSON
}.

Record ReportScoreTree := {
  report_score : number;
  report_categories : list CategoryJSON
}.

(** What [arithmeticMean] reads of an item: its [score] and [weight]. *)
Class ScoreWeight (A : Type) := {
  item_score : A -> value;
  item_weight : A -> value
}.

Record Item := { score : value; weight : value }.

#[export] Instance ScoreWeight_Item : ScoreWeight Item :=
  {| item_score := score; item_weight := weight |}.

#[export] Instance ScoreWeight_AuditJSON : ScoreWeight AuditJSON :=
  {| item_score := fun a => VNumber (audit_score a);
     item_weight := audit_weight |}.

#[export] Instance ScoreWeight_CategoryJSON : ScoreWeight CategoryJSON :=
  {| item_score := fun c => VNumber (category_score c);
     item_weight := category_weight |}.

(** ** ReportGeneratorV2 *)

Module ReportGeneratorV2.

(** The accumulator of the [reduce] in [arithmeticMean]. *)
Record Totals := { total_weight : number; total_sum : number }.

Section ArithmeticMean.
Context {A : Type} `{ScoreWeight A}.

(** [Number(item.score) || 0] and [Number(item.weight) || 0]. *)
Definition coerce (v : value) : number := num_or (ToNumber v) zero.

Definition reduce_step (result : Totals) (item : A) : Totals :=
  let score := coerce (item_score item) in
  let weight := coerce (item_weight item) in
  {| total_weight := num_add (total_weight result) weight;
     total_sum := num_add (total_sum result) (num_mul score weight) |}.

Definition reduce_items (items : list A) : Totals :=
  fold_left reduce_step items {| total_weight := zero; total_sum := zero |}.

Definition arithmeticMean (items : list A) : number :=
  let results := reduce_items items in
  num_or (num_div (total_sum results) (total_weight results)) zero.
End ArithmeticMean.

(** The parts of a split, with the code unit [c] put in front of the
    first part. *)
Definition cons_first (c : ascii) (parts : list string) : list string :=
  match parts with
  | p :: ps => String c p :: ps
  | [] => [String c ""]
  end.

(** [string.split(separator)] for a separator that is not empty, scanning
    left to right; [skip] counts the code units of a separator just found
    that are still to be passed over. *)
Fixpoint split_from (sep : string) (skip : nat) (s : string) : list string :=
  match s with
  | EmptyString => [""]
  | String c s' =>
      match skip with
      | S k => split_from sep k s'
      | O =>
          if prefix sep s
          then "" :: split_from sep (String.length sep - 1) s'
          else cons_first c (split_from sep 0 s')
      end
  end.

(** [string.split(separator)]; an empty separator splits the string into
    its code units. *)
Definition split (sep s : string) : list string :=
  match sep with
  | EmptyString => map (fun c => String c "") (list_ascii_of_string s)
  | _ => split_from sep 0 s
  end.

(** [array.join(separator)]. *)
Definition join (sep : string) (parts : list string) : string :=
  String.concat sep parts.

Record Replacement := { search : string; replacement : string }.

Fixpoint replaceStrings (source : string) (replacements : list Replacement)
  : string :=
  match replacements with
  | [] => source
  | firstReplacement :: nextReplacements =>
      join (replacement firstReplacement)
        (map (fun part => replaceStrings part nextReplacements)
           (split (search firstReplacement) source))
  end.

(** The score given to an audit from [result.score]. *)
Definition auditScore_of (result : RawAuditResult) : number :=
  let auditScore := coerce (result_score result) in
  match result_score result with
  | VBoolean b => if b then Z2SF 100 else zero
  | _ => auditScore
  end.

(** The callback of [category.audits.map]: the audit definition with the
    result found under its id and the score of that result. A missing
    result is [undefined], and reading its [score] is a [TypeError]. *)
Definition score_audit (resultsByAuditId : JSObject RawAuditResult)
    (audit : AuditDefinition) : M AuditJSON :=
  match get_property resultsByAuditId (def_id audit) with
  | None => raise (TypeError "Cannot read property 'score' of undefined")
  | Some result =>
      ret {| audit_id := def_id audit;
             audit_weight := def_weight audit;
             audit_score := auditScore_of result;
             audit_result := result |}
  end.

(** The callback of [Object.keys(config.categories).map]: the category
    definition with its scored audits and the rounded mean of their
    scores. *)
Definition score_category (config : Config)
    (resultsByAuditId : JSObject RawAuditResult) (categoryId : string)
  : M CategoryJSON :=
  match get_property (config_categories config) categoryId with
  | None => raise (TypeError "Cannot read property 'audits' of undefined")
  | Some category =>
      audits <- array_map (score_audit resultsByAuditId) (def_audits category) ;;
      let categoryScore := Math_round (arithmeticMean audits) in
      ret {| category_name := def_name category;
             category_description := def_description category;
             category_weight := def_category_weight category;
             category_score := categoryScore;
             category_audits := audits |}
  end.

Definition generateReportJson (config : Config)
    (resultsByAuditId : JSObject RawAuditResult) : M ReportScoreTree :=
  categories <- array_map (score_category config resultsByAuditId)
                  (Object_keys (config_categories config)) ;;
  let overallScore := arithmeticMean categories in
  ret {| report_score := overallScore; report_categories := categories |}.

End ReportGeneratorV2.

(** ** The document model of the renderer *)

(** A node of the document: a text node, or an element with its tag name,
    class list, attributes, [open] property (unset until assigned) and
    child nodes. *)
Inductive Node :=
| Text (data : string)
| Element (tagName : string) (classList : list string)
          (attributes : list (string * string)) (open : option bool)
          (childNodes : list Node).

(** A [DocumentFragment]: its child nodes. *)
Definition Fragment : Type := list Node.

(** A reference to a node of a fragment: the child indices leading to it. *)
Definition Ref : Type := list nat.

(** What the renderer is given by its environment: the [<template>]
    elements of the document by selector (each with its content), the
    locale formatting of numbers, and the [stack] property the engine gives
    an exception. *)
Record Host := {
  templates : JSObject Fragment;
  toLocaleString : number -> string;
  stack : Exception -> string
}.

Definition hasClass (cls : string) (n : Node) : bool :=
  match n with
  | Element _ classes _ _ _ => existsb (String.eqb cls) classes
  | Text _ => false
  end.

Section FindFirst.
Context {A : Type}.
Variable find : A -> option Ref.

(** The first child, from index [i] on, in which [find] succeeds. *)
Fixpoint find_first (l : list A) (i : nat) : option Ref :=
  match l with
  | [] => None
  | x :: rest =>
      match find x with
      | Some r => Some (i :: r)
      | None => find_first rest (S i)
      end
  end.
End FindFirst.

(** The first node satisfying [p] in the subtree of [n], in tree order. *)
Fixpoint find_node (p : Node -> bool) (n : Node) : option Ref :=
  if p n then Some []
  else
    match n with
    | Text _ => None
    | Element _ _ _ _ children => find_first (find_node p) children 0
    end.

(** [fragment.querySelector(selector)] for a class selector [.name]: the
    first descendant element, in tree order, with that class. *)
Definition querySelector (selector : string) (tmpl : Fragment) : option Ref :=
  match selector with
  | String "."%char cls => find_first (find_node (hasClass cls)) tmpl 0
  | _ => None
  end.

Fixpoint update_nth {A} (i : nat) (f : A -> A) (l : list A) : list A :=
  match l, i with
  | [], _ => []
  | x :: rest, O => f x :: rest
  | x :: rest, S j => x :: update_nth j f rest
  end.

Definition map_children (f : list Node -> list Node) (n : Node) : Node :=
  match n with
  | Element t c a o children => Element t c a o (f children)
  | Text _ => n
  end.

(** The fragment after the node that [r] refers to has been changed. *)
Fixpoint update_at (r : Ref) (f : Node -> Node) (tmpl : Fragment) : Fragment :=
  match r with
  | [] => tmpl
  | i :: r' =>
      match r' with
      | [] => update_nth i f tmpl
      | _ => update_nth i (map_children (update_at r' f)) tmpl
      end
  end.

(** [element.textContent = text]: the children are replaced by one text
    node, or by nothing when the text is empty. *)
Definition set_textContent (text : string) (n : Node) : Node :=
  map_children
    (fun _ => match text with EmptyString => [] | _ => [Text text] end) n.

(** [element.classList.add(...classes)]. *)
Definition classList_add (classes : list string) (n : Node) : Node :=
  match n with
  | Element t c a o children =>
      Element t
        (fold_left
           (fun acc cls =>
              if existsb (String.eqb cls) acc then acc else (acc ++ [cls])%list)
           classes c)
        a o children
  | Text _ => n
  end.

Definition set_open (b : bool) (n : Node) : Node :=
  match n with
  | Element t c a _ children => Element t c a (Some b) children
  | Text _ => n
  end.

Definition appendChild (child : Node) (n : Node) : Node :=
  map_children (fun children => (children ++ [child])%list) n.

(** [element.appendChild(fragment)] moves the children of the fragment. *)
Definition appendFragment (tmpl : Fragment) (n : Node) : Node :=
  map_children (fun children => (children ++ tmpl)%list) n.

(** [element.textContent]. *)
Fixpoint textContent (n : Node) : string :=
  match n with
  | Text data => data
  | Element _ _ _ _ children => String.concat "" (map textContent children)
  end.

Module DOM.

(** [DOM.setText(element, text)], for an element of the fragment [tmpl] or
    [null]. *)
Definition setText (tmpl : Fragment) (element : option Ref) (text : string)
  : Fragment :=
  match element with
  | Some r => update_at r (set_textContent text) tmpl
  | None => tmpl
  end.

(** [DOM.addClass(element, ...classes)]. *)
Definition addClass (tmpl : Fragment) (element : option Ref)
    (classes : list string) : Fragment :=
  match element with
  | Some r => update_at r (classList_add classes) tmpl
  | None => tmpl
  end.

(** [createElement(name, className, attrs)]; the class names the renderer
    passes are single tokens. *)
Definition createElement (name : string) (className : option string)
    (attrs : list (string * string)) : Node :=
  Element name
    (match className with
     | Some (String _ _ as c) => [c]
     | _ => []
     end)
    attrs None [].

Definition cloneTemplate (host : Host) (selector : string) : M Fragment :=
  match get_property (templates host) selector with
  | None => raise (Error ("Template not found: template" ++ selector))
  | Some content => ret content
  end.

End DOM.

(** ** report-renderer.js *)

Module RATINGS.
Definition PASS_label : string := "pass".
Definition PASS_minScore : number := Z2SF 75.
Definition AVERAGE_label : string := "average".
Definition AVERAGE_minScore : number := Z2SF 45.
Definition FAIL_label : string := "fail".
End RATINGS.

(** Convert a score to a rating label. Only the precision ['numeric'] has
    thresholds; every other precision is treated as binary. *)
Definition calculateRating (score : number) (precision : string) : string :=
  if (precision =? "numeric")%string then
    if num_ge score RATINGS.PASS_minScore then RATINGS.PASS_label
    else if num_ge score RATINGS.AVERAGE_minScore then RATINGS.AVERAGE_label
    else RATINGS.FAIL_label
  else
    if strict_eq score (Z2SF 100) then RATINGS.PASS_label
    else RATINGS.FAIL_label.

Definition formatNumber (host : Host) (n : number) : string :=
  toLocaleString host n.

Record ReportJSON := {
  reportCategories : list CategoryJSON
}.

Module ReportRenderer.

Section Renderer.
Variable host : Host.

(** [element.textContent = text.text]; a text that is absent sets no
    text. *)
Definition _renderText (text : DetailsJSON) : M Node :=
  let element := DOM.createElement "div" (Some "lighthouse-text") [] in
  ret (set_textContent
         (match details_text text with Some s => s | None => "" end)
         element).

Section Children.
(** The recursive call of [_renderDetails] on a child. *)
Variable renderDetails : DetailsJSON -> M Node.

(** [for (const item of block.items)
       element.appendChild(this._renderDetails(item))]; items that are
    absent cannot be iterated. *)
Definition _renderBlock (block : DetailsJSON) : M Node :=
  let element := DOM.createElement "div" (Some "lighthouse-block") [] in
  match details_items block with
  | None => raise (TypeError "block.items is not iterable")
  | Some items =>
      children <- array_map renderDetails items ;;
      ret (fold_left (fun el child => appendChild child el) children element)
  end.

(** The header, when there is one, comes first; the rendered items are
    the children of one element appended after it. *)
Definition _renderList (list : DetailsJSON) : M Node :=
  let element := DOM.createElement "details" (Some "lighthouse-list") [] in
  let element :=
    match details_header list with
    | Some header =>
        let summary :=
          DOM.createElement "summary" (Some "lighthouse-list__header") [] in
        let summary :=
          set_textContent
            (match details_text header with Some s => s | None => "" end)
            summary in
        appendChild summary element
    | None => element
    end in
  let items := DOM.createElement "div" (Some "lighthouse-list__items") [] in
  match details_items list with
  | None => raise (TypeError "list.items is not iterable")
  | Some children =>
      rendered <- array_map renderDetails children ;;
      let items :=
        fold_left (fun el child => appendChild child el) rendered items in
      ret (appendChild items element)
  end.
End Children.

Fixpoint _renderDetails (details : DetailsJSON) : M Node :=
  let type := details_type details in
  if (type =? "text")%string then _renderText details
  else if (type =? "block")%string then _renderBlock _renderDetails details
  else if (type =? "list")%string then _renderList _renderDetails details
  else raise (Error ("Unknown type: " ++ type)).

(** The precision and the rating [_renderScore] computes. *)
Definition score_precision (isAudit : bool) : string :=
  if isAudit then "binary" else "category".

Definition score_rating (isAudit : bool) (score : number) : string :=
  calculateRating score (score_precision isAudit).

(** The template is cloned, then changed in place: each
    [querySelector] is made on the fragment as the changes before it have
    left it. An audit is the argument that has a [result]. *)
Definition _renderScore (score : number) (title description : string)
    (auditOrCategory : AuditJSON + CategoryJSON) : M Fragment :=
  let isAudit :=
    match auditOrCategory with inl _ => true | inr _ => false end in
  let precision := score_precision isAudit in
  let rating := score_rating isAudit score in
  tmpl <- (if isAudit
           then DOM.cloneTemplate host "#tmpl-lighthouse-audit-score"
           else DOM.cloneTemplate host "#tmpl-lighthouse-category-score") ;;
  let value := querySelector ".lighthouse-score__value" tmpl in
  let tmpl := DOM.setText tmpl value (formatNumber host score) in
  let tmpl :=
    DOM.addClass tmpl value
      ["lighthouse-score__value--" ++ rating;
       "lighthouse-score__value--" ++ precision] in
  let tmpl :=
    DOM.setText tmpl (querySelector ".lighthouse-score__title" tmpl) title in
  let tmpl :=
    DOM.setText tmpl (querySelector ".lighthouse-score__description" tmpl)
      description in
  let header := querySelector ".lighthouse-score__header" tmpl in
  match auditOrCategory, header with
  | inl audit, Some r =>
      let tmpl := update_at r (set_open (num_lt score (Z2SF 100))) tmpl in
      match result_details (audit_result audit) with
      | Some details =>
          child <- _renderDetails details ;;
          ret (update_at r (appendChild child) tmpl)
      | None => ret tmpl
      end
  | _, _ => ret tmpl
  end.

Definition _renderException (e : Exception) : M Node :=
  let element := DOM.createElement "div" (Some "lighthouse-exception") [] in
  ret (set_textContent (stack host e) element).

(** The title [_renderAudit] composes for an audit. *)
Definition audit_title (audit : AuditJSON) : string :=
  let title := result_description (audit_result audit) in
  let title :=
    match result_displayValue (audit_result audit) with
    | Some (String _ _ as displayValue) => title ++ ":  " ++ displayValue
    | _ => title
    end in
  match result_optimalValue (audit_result audit) with
  | Some (String _ _ as optimalValue) =>
      title ++ " (target: " ++ optimalValue ++ ")"
  | _ => title
  end.

Definition _renderAudit (audit : AuditJSON) : M Node :=
  let element := DOM.createElement "div" (Some "lighthouse-audit") [] in
  let title := audit_title audit in
  score <- _renderScore (audit_score audit) title
             (result_helpText (audit_result audit)) (inl audit) ;;
  ret (appendFragment score element).

Definition _renderCategory (category : CategoryJSON) : M Node :=
  let element := DOM.createElement "div" (Some "lighthouse-category") [] in
  score <- _renderScore (category_score category) (category_name category)
             (category_description category) (inr category) ;;
  let element := appendFragment score element in
  audits <- array_map _renderAudit (category_audits category) ;;
  ret (fold_left (fun el child => appendChild child el) audits element).

Definition _renderReport (report : ReportJSON) : M Node :=
  let element := DOM.createElement "div" (Some "lighthouse-report") [] in
  categories <- array_map _renderCategory (reportCategories report) ;;
  ret (fold_left (fun el child => appendChild child el) categories element).

(** [try { return this._renderReport(report); }
     catch (e) { return this._renderException(e); }] *)
Definition renderReport (report : ReportJSON) : M Node :=
  catch (_renderReport report) (fun e => _renderException e).

End Renderer.

End ReportRenderer.

(** ** Notions used to state the properties *)

Module Spec.

Import ReportGeneratorV2.

(** A field that holds no number: [null], [undefined], [NaN], or a string
    that is not a numeric literal. *)
Definition not_numeric (v : value) : bool :=
  match v with
  | VNull | VUndefined => true
  | VNumber n => is_nan n
  | VString s => is_nan (StringToNumber s)
  | VBoolean _ => false
  end.

(** The field with [0] in place of a value that holds no number. *)
Definition zero_field (v : value) : value :=
  if not_numeric v then VNumber zero else v.

Definition zero_out (it : Item) : Item :=
  {| score := zero_field (score it); weight := zero_field (weight it) |}.

(** The normalized score [n] of an audit whose result has the score [v],
    as the specification words it. *)
Definition normalized_as_specified (v : value) (n : number) : Prop :=
  (v = VBoolean true -> n = Z2SF 100) /\
  (v = VBoolean false -> n = zero) /\
  ((forall b, v <> VBoolean b) ->
   is_finite (ToNumber v) = true -> is_zero (ToNumber v) = false ->
   n = ToNumber v) /\
  (not_numeric v = true -> n = zero).

(** Every audit id listed in the configuration has an entry in the
    results. *)
Definition results_present (config : Config)
    (resultsByAuditId : JSObject RawAuditResult) : Prop :=
  Forall
    (fun kv =>
       Forall (fun a => get_property resultsByAuditId (def_id a) <> None)
         (def_audits (snd kv)))
    (config_categories config).

(** A scored audit, or category, carries the fields of its definition. *)
Definition audit_of (d : AuditDefinition) (a : AuditJSON) : Prop :=
  audit_id a = def_id d /\ audit_weight a = def_weight d.

Definition category_of (d : CategoryDefinition) (c : CategoryJSON) : Prop :=
  category_name c = def_name d /\
  category_description c = def_description d /\
  category_weight c = def_category_weight d /\
  Forall2 audit_of (def_audits d) (category_audits c).

(** [pat] occurs in [s] as a run of consecutive code units. *)
Definition occurs_in (pat s : string) : Prop :=
  exists a b, s = a ++ pat ++ b.

(** The output of [replaceStrings] laid out in pieces: text kept from the
    source, and places where the replacement of the [i]-th pair goes. *)
Inductive piece :=
| Lit (text : string)
| Ins (i : nat).

(** The lists of [ls] in a row, with [sep] between neighbours. *)
Fixpoint intercalate {A} (sep : list A) (ls : list (list A)) : list A :=
  match ls with
  | [] => []
  | [l] => l
  | l :: rest => (l ++ sep ++ intercalate sep rest)%list
  end.

(** The layout of the source for a list of search strings: it is computed
    from the source and the search strings alone. *)
Fixpoint layout (i : nat) (searches : list string) (source : string)
  : list piece :=
  match searches with
  | [] => [Lit source]
  | srch :: next =>
      intercalate [Ins i] (map (layout (S i) next) (split srch source))
  end.

(** The string a layout stands for once [texts] are put in its places. *)
Fixpoint fill (texts : list string) (ps : list piece) : string :=
  match ps with
  | [] => ""
  | Lit t :: rest => t ++ fill texts rest
  | Ins i :: rest => nth i texts "" ++ fill texts rest
  end.

(** The suffix of a title for an optional field: the field between
    [opening] and [closing] when it is present and not empty, and nothing
    otherwise. *)
Definition title_suffix (opening closing : string) (field : option string)
  : string :=
  match field with
  | Some (String _ _ as text) => opening ++ text ++ closing
  | _ => ""
  end.

(** Two objects with the same value under every key, whatever the order
    their keys were inserted in. *)
Definition same_entries {V} (o1 o2 : JSObject V) : Prop :=
  forall key, get_property o1 key = get_property o2 key.

End Spec.

(** ** Sample inputs *)

Module Samples.

Import ReportGeneratorV2.

(** An item with a numeric score and weight. *)
Definition item (s w : Z) : Item :=
  {| score := VNumber (Z2SF s); weight := VNumber (Z2SF w) |}.

(** Weights [1] and [-1] cancel; the weighted sum is [10 - 20]. *)
Definition cancelling_items : list Item := [item 10 1; item 20 (-1)].

Definition infinite_score_items : list Item :=
  [{| score := VNumber Infinity; weight := VNumber (Z2SF 1) |}].

Definition zero_weight_items : list Item :=
  [item 50 0; {| score := VString "n/a"; weight := VNull |}].

Definition result_with_score (v : value) : RawAuditResult :=
  {| result_score := v;
     result_description := "desc";
     result_displayValue := None;
     result_optimalValue := None;
     result_helpText := "help";
     result_details := None |}.

(** One category "Perf" with audits [A] (weight 1) and [B] (weight 3). *)
Definition perf_config : Config :=
  {| config_categories :=
       [("perf",
         {| def_name := "Perf";
            def_description := "Performance";
            def_category_weight := VNumber (Z2SF 1);
            def_audits :=
              [{| def_id := "A"; def_weight := VNumber (Z2SF 1) |};
               {| def_id := "B"; def_weight := VNumber (Z2SF 3) |}] |})] |}.

Definition perf_results : JSObject RawAuditResult :=
  [("A", result_with_score (VNumber (Z2SF 50)));
   ("B", result_with_score (VNumber (Z2SF 90)))].

(** The same results, inserted in the other order. *)
Definition perf_results_reordered : JSObject RawAuditResult :=
  [("B", result_with_score (VNumber (Z2SF 90)));
   ("A", result_with_score (VNumber (Z2SF 50)))].

Definition perf_tree : ReportScoreTree :=
  let audits :=
    [{| audit_id := "A"; audit_weight := VNumber (Z2SF 1);
        audit_score := Z2SF 50;
        audit_result := result_with_score (VNumber (Z2SF 50)) |};
     {| audit_id := "B"; audit_weight := VNumber (Z2SF 3);
        audit_score := Z2SF 90;
        audit_result := result_with_score (VNumber (Z2SF 90)) |}] in
  {| report_score := Z2SF 80;
     report_categories :=
       [{| category_name := "Perf";
           category_description := "Performance";
           category_weight := VNumber (Z2SF 1);
           category_score := Z2SF 80;
           category_audits := audits |}] |}.

(** Two categories of weight 1: the audits of the first have the scores 50
    and 91, the audit of the second has the score 80. *)
Definition two_category_config : Config :=
  {| config_categories :=
       [("first",
         {| def_name := "First";
            def_description := "";
            def_category_weight := VNumber (Z2SF 1);
            def_audits :=
              [{| def_id := "A"; def_weight := VNumber (Z2SF 1) |};
               {| def_id := "B"; def_weight := VNumber (Z2SF 1) |}] |});
        ("second",
         {| def_name := "Second";
            def_description := "";
            def_category_weight := VNumber (Z2SF 1);
            def_audits :=
              [{| def_id := "C"; def_weight := VNumber (Z2SF 1) |}] |})] |}.

Definition two_category_results : JSObject RawAuditResult :=
  [("C", result_with_score (VNumber (Z2SF 80)));
   ("B", result_with_score (VNumber (Z2SF 91)));
   ("A", result_with_score (VNumber (Z2SF 50)))].

Definition overall_score (r : M ReportScoreTree) : option number :=
  match r with
  | inr tree => Some (report_score tree)
  | inl _ => None
  end.

(** One category with a single audit of weight 1. *)
Definition single_config : Config :=
  {| config_categories :=
       [("c",
         {| def_name := "C";
            def_description := "";
            def_category_weight := VNumber (Z2SF 1);
            def_audits := [{| def_id := "A"; def_weight := VNumber (Z2SF 1) |}] |})] |}.

(** A result whose score is 200. *)
Definition over_results : JSObject RawAuditResult :=
  [("A", result_with_score (VNumber (Z2SF 200)))].

(** One category whose two audits have the weights 1 and -1. *)
Definition cancelling_config : Config :=
  {| config_categories :=
       [("c",
         {| def_name := "C";
            def_description := "";
            def_category_weight := VNumber (Z2SF 1);
            def_audits :=
              [{| def_id := "A"; def_weight := VNumber (Z2SF 1) |};
               {| def_id := "B"; def_weight := VNumber (Z2SF (-1)) |}] |})] |}.

Definition cancelling_results : JSObject RawAuditResult :=
  [("A", result_with_score (VNumber (Z2SF 10)));
   ("B", result_with_score (VNumber (Z2SF 20)))].

(** The scores of the categories of a report, when there is one. *)
Definition category_scores (r : M ReportScoreTree) : option (list number) :=
  match r with
  | inr tree => Some (map category_score (report_categories tree))
  | inl _ => None
  end.

Definition over_tree : ReportScoreTree :=
  {| report_score := Z2SF 200;
     report_categories :=
       [{| category_name := "C";
           category_description := "";
           category_weight := VNumber (Z2SF 1);
           category_score := Z2SF 200;
           category_audits :=
             [{| audit_id := "A"; audit_weight := VNumber (Z2SF 1);
                 audit_score := Z2SF 200;
                 audit_result := result_with_score (VNumber (Z2SF 200)) |}] |}] |}.

Definition overlapping_replacements : list Replacement :=
  [{| search := "a"; replacement := "X" |};
   {| search := "ab"; replacement := "Y" |}].

(** The replacement of the first pair contains the search string of the
    second. *)
Definition nested_replacements : list Replacement :=
  [{| search := "%%JSON%%"; replacement := "{%%JS%%}" |};
   {| search := "%%JS%%"; replacement := "code" |}].

(** Integer-valued numbers in decimal digits, without grouping; other
    values by name. *)
Definition sample_toLocaleString (n : number) : string :=
  match n with
  | S754_zero _ => "0"
  | S754_nan => "NaN"
  | S754_infinity s => if s then "-Infinity" else "Infinity"
  | S754_finite s m e =>
      if is_integer n then
        let z := if (0 <=? e)%Z then (Z.pos m * 2 ^ e)%Z
                 else (Z.pos m / 2 ^ (- e))%Z in
        (if s then "-" else "") ++
        NilEmpty.string_of_uint (Pos.to_uint (Z.to_pos z))
      else "fraction"
  end.

Definition sample_stack (e : Exception) : string :=
  match e with
  | Error message => "Error: " ++ message
  | TypeError message => "TypeError: " ++ message
  end.

Definition category_score_template : Fragment :=
  [Element "div" ["lighthouse-score"] [] None
     [Element "div" ["lighthouse-score__value"] [] None [];
      Element "div" ["lighthouse-score__header"] [] None
        [Element "div" ["lighthouse-score__title"] [] None [];
         Element "div" ["lighthouse-score__description"] [] None []]]].

Definition audit_score_template : Fragment :=
  [Element "div" ["lighthouse-score"] [] None
     [Element "div" ["lighthouse-score__value"] [] None [];
      Element "details" ["lighthouse-score__header"] [] None
        [Element "summary" [] [] None
           [Element "div" ["lighthouse-score__title"] [] None []];
         Element "div" ["lighthouse-score__description"] [] None []]]].

Definition sample_host : Host :=
  {| templates :=
       [("#tmpl-lighthouse-category-score", category_score_template);
        ("#tmpl-lighthouse-audit-score", audit_score_template)];
     toLocaleString := sample_toLocaleString;
     stack := sample_stack |}.

Definition sample_result (displayValue optimalValue : option string)
    (details : option DetailsJSON) : RawAuditResult :=
  {| result_score := VNumber (Z2SF 92);
     result_description := "desc";
     result_displayValue := displayValue;
     result_optimalValue := optimalValue;
     result_helpText := "help";
     result_details := details |}.

Definition sample_audit (result : RawAuditResult) : AuditJSON :=
  {| audit_id := "a";
     audit_weight := VNumber (Z2SF 1);
     audit_score := Z2SF 92;
     audit_result := result |}.

(** A category whose score is 92. *)
Definition sample_category (audits : list AuditJSON) : CategoryJSON :=
  {| category_name := "Perf";
     category_description := "Performance";
     category_weight := VNumber (Z2SF 1);
     category_score := Z2SF 92;
     category_audits := audits |}.

(** A report with one audit whose details have the unknown type [graph]. *)
Definition graph_report : ReportJSON :=
  {| reportCategories :=
       [sample_category
          [sample_audit
             (sample_result None None
                (Some (Details "graph" None None None)))]] |}.

End Samples.


(** ** ReportGeneratorV2: the HTML report *)

Module ReportHtml.

Import ReportGeneratorV2.

(** The files the generator reads when it is loaded, and [JSON.stringify]
    on a report. *)
Record Assets := {
  REPORT_TEMPLATE : string;
  REPORT_JAVASCRIPT : string;
  REPORT_CSS : string;
  REPORT_TEMPLATES : string;
  JSON_stringify : ReportScoreTree -> string
}.

(** [string.replace(/pattern/g, replacement)] for a pattern that is literal
    text and not empty, and a replacement without [$]: the occurrences are
    taken left to right, each starting where the one before it ended.
    [skip] counts the code units of an occurrence just found that are still
    to be passed over. *)
Fixpoint replace_all_from (pattern replacement : string) (skip : nat)
    (s : string) : string :=
  match s with
  | EmptyString => ""
  | String c s' =>
      match skip with
      | S k => replace_all_from pattern replacement k s'
      | O =>
          if prefix pattern s
          then replacement
               ++ replace_all_from pattern replacement
                    (String.length pattern - 1) s'
          else String c (replace_all_from pattern replacement 0 s')
      end
  end.

Definition replace_all (pattern replacement s : string) : string :=
  replace_all_from pattern replacement 0 s.

(** The number of code units before the first occurrence of [pat]. *)
Fixpoint index_of (pat s : string) : option nat :=
  if prefix pat s then Some 0
  else
    match s with
    | EmptyString => None
    | String _ s' => option_map S (index_of pat s')
    end.

(** The string without its first [n] code units. *)
Fixpoint drop (n : nat) (s : string) : string :=
  match n, s with
  | S k, String _ s' => drop k s'
  | _, _ => s
  end.

(** [string.replace(/<script>([\s\S]*?)<\/script>/g, '')]: scanning left to
    right, an opening tag that has a closing tag after it is removed with
    everything up to the first such closing tag, and the scan goes on after
    it. *)
Fixpoint remove_scripts_from (skip : nat) (s : string) : string :=
  match s with
  | EmptyString => ""
  | String c s' =>
      match skip with
      | S k => remove_scripts_from k s'
      | O =>
          if prefix "<script>" s then
            match index_of "</script>" (drop 8 s) with
            | Some j => remove_scripts_from (8 + j + 9 - 1) s'
            | None => String c (remove_scripts_from 0 s')
            end
          else String c (remove_scripts_from 0 s')
      end
  end.

Definition remove_scripts (s : string) : string := remove_scripts_from 0 s.

(** The six code units of the escape written ['\\u003c'] in the source:
    a backslash, [u], [0], [0], [3], [c]. *)
Definition escaped_lt : string := "\u003c".

(** [JSON.stringify(reportAsJson).replace(/</g, '\\u003c')]. *)
Definition sanitizeJson (json : string) : string :=
  replace_all "<" escaped_lt json.

(** [REPORT_JAVASCRIPT.replace(/<\//g, '\\u003c/')]. *)
Definition sanitizeJavascript (javascript : string) : string :=
  replace_all "</" (escaped_lt ++ "/") javascript.

(** The search/replacement pairs of [generateReportHtml]. *)
Definition html_replacements (assets : Assets) (reportAsJson : ReportScoreTree)
  : list Replacement :=
  let sanitizedJson := sanitizeJson (JSON_stringify assets reportAsJson) in
  let sanitizedJavascript := sanitizeJavascript (REPORT_JAVASCRIPT assets) in
  let sanitizedTemplates := remove_scripts (REPORT_TEMPLATES assets) in
  [{| search := "%%LIGHTHOUSE_JSON%%"; replacement := sanitizedJson |};
   {| search := "%%LIGHTHOUSE_JAVASCRIPT%%";
      replacement := sanitizedJavascript |};
   {| search := "/*%%LIGHTHOUSE_CSS%%*/"; replacement := REPORT_CSS assets |};
   {| search := "%%LIGHTHOUSE_TEMPLATES%%";
      replacement := sanitizedTemplates |}].

Definition generateReportHtml (assets : Assets)
    (reportAsJson : ReportScoreTree) : string :=
  replaceStrings (REPORT_TEMPLATE assets) (html_replacements assets reportAsJson).

(** The four placeholders of the report template, in the order of the
    pairs. *)
Definition placeholders : list string :=
  ["%%LIGHTHOUSE_JSON%%"; "%%LIGHTHOUSE_JAVASCRIPT%%";
   "/*%%LIGHTHOUSE_CSS%%*/"; "%%LIGHTHOUSE_TEMPLATES%%"].

(** What goes in their places. *)
Definition page_contents (assets : Assets) (reportAsJson : ReportScoreTree)
  : list string :=
  [sanitizeJson (JSON_stringify assets reportAsJson);
   sanitizeJavascript (REPORT_JAVASCRIPT assets);
   REPORT_CSS assets;
   remove_scripts (REPORT_TEMPLATES assets)].

End ReportHtml.

(** ** Notions used to state further properties *)

Module Occurrences.

Import ReportGeneratorV2.

(** A text given by its pieces: the text [t0] before the first occurrence
    of a search string, then, for each occurrence, the index of its pair
    and the text that follows it. [texts] holds what stands at the
    occurrences: the search strings for the source, the replacements for
    the output. *)
Fixpoint weave (texts : list string) (t0 : string)
    (segs : list (nat * string)) : string :=
  match segs with
  | [] => t0
  | (k, t) :: rest => t0 ++ nth k texts "" ++ weave texts t rest
  end.

(** [x] is the text before one of the occurrences of [segs], and [j] the
    index of the pair of that occurrence. *)
Fixpoint listed (searches : list string) (t0 : string)
    (segs : list (nat * string)) (j : nat) (x : string) : Prop :=
  match segs with
  | [] => False
  | (k, t) :: rest =>
      (j = k /\ x = t0) \/
      exists x', x = t0 ++ nth k searches "" ++ x' /\
                 listed searches t rest j x'
  end.

End Occurrences.

(** ** Further sample inputs *)

Module MoreSamples.

Import ReportGeneratorV2 ReportHtml.

(** Each search string is the replacement of the other pair. *)
Definition swapping_replacements : list Replacement :=
  [{| search := "a"; replacement := "b" |};
   {| search := "b"; replacement := "a" |}].

(** Pairs that put each search string back, one of them empty. *)
Definition same_text_replacements : list Replacement :=
  [{| search := "an"; replacement := "an" |};
   {| search := ""; replacement := "" |}].

(** The replacement of the first pair contains the search string of the
    second. *)
Definition short_replacements : list Replacement :=
  [{| search := "%J"; replacement := "{%C}" |};
   {| search := "%C"; replacement := "x" |}].

(** The double quote. *)
Definition quote : string := String (ascii_of_nat 34) "".

(** The JSON text of an object whose one member holds a closing tag and a
    placeholder. *)
Definition sample_json : string :=
  "{" ++ quote ++ "n" ++ quote ++ ":" ++ quote
  ++ "</script>%%LIGHTHOUSE_CSS%%" ++ quote ++ "}".

(** A page whose template has the style sheet before the report. *)
Definition sample_assets : Assets :=
  {| REPORT_TEMPLATE :=
       "<style>/*%%LIGHTHOUSE_CSS%%*/</style><script>r=%%LIGHTHOUSE_JSON%%</script>";
     REPORT_JAVASCRIPT := "";
     REPORT_CSS := "b{}";
     REPORT_TEMPLATES := "";
     JSON_stringify := fun _ => sample_json |}.


(** The results of the sample with one more entry, under an id that no
    audit of the configuration has. *)
Definition results_with_extra : JSObject RawAuditResult :=
  ("unused", Samples.result_with_score (VBoolean true))
  :: Samples.perf_results.

(** One category whose audits have no weight: one is absent, one is not a
    number. *)
Definition weightless_config : Config :=
  {| config_categories :=
       [("c",
         {| def_name := "C";
            def_description := "";
            def_category_weight := VUndefined;
            def_audits :=
              [{| def_id := "A"; def_weight := VUndefined |};
               {| def_id := "B"; def_weight := VString "heavy" |}] |})] |}.

Definition weightless_tree : ReportScoreTree :=
  {| report_score := zero;
     report_categories :=
       [{| category_name := "C";
           category_description := "";
           category_weight := VUndefined;
           category_score := zero;
           category_audits :=
             [{| audit_id := "A"; audit_weight := VUndefined;
                 audit_score := Z2SF 50;
                 audit_result :=
                   Samples.result_with_score (VNumber (Z2SF 50)) |};
              {| audit_id := "B"; audit_weight := VString "heavy";
                 audit_score := Z2SF 90;
                 audit_result :=
                   Samples.result_with_score (VNumber (Z2SF 90)) |}] |}] |}.

Definition empty_tree : ReportScoreTree :=
  {| report_score := zero; report_categories := [] |}.

End MoreSamples.

(** ** Notions used to state the properties of the renderer *)

Module RenderSpec.

(** The text of an optional field, absent meaning none. *)
Definition text_or_empty (text : option string) : string :=
  match text with Some s => s | None => "" end.

(** A details node that [_renderDetails] can render: its type is [text],
    or it is [block] or [list] with items that can all be rendered. The
    header of a list is not looked at beyond its text. *)
Fixpoint renderable (details : DetailsJSON) : bool :=
  let type := details_type details in
  if (type =? "text")%string then true
  else if ((type =? "block") || (type =? "list"))%string then
    match details_items details with
    | Some items => forallb renderable items
    | None => false
    end
  else false.

(** The exceptions of [_renderDetails]: the error for a type that is none
    of the three, and the [TypeError] of items that cannot be iterated. *)
Definition render_failure (e : Exception) : Prop :=
  (exists type,
     type <> "text" /\ type <> "block" /\ type <> "list" /\
     e = Error ("Unknown type: " ++ type)) \/
  (exists message, e = TypeError message).

(** The text a details node holds, in reading order: its own text for a
    [text] node, the text of its items for a [block], the text of its
    header and then of its items for a [list]. *)
Fixpoint details_reading (details : DetailsJSON) : string :=
  let type := details_type details in
  let items :=
    match details_items details with
    | Some items => String.concat "" (map details_reading items)
    | None => ""
    end in
  if (type =? "text")%string then text_or_empty (details_text details)
  else if (type =? "block")%string then items
  else if (type =? "list")%string then
    match details_header details with
    | Some header => text_or_empty (details_text header) ++ items
    | None => items
    end
  else "".

(** The node a reference leads to. *)
Fixpoint node_at (r : Ref) (tmpl : Fragment) : option Node :=
  match r with
  | [] => None
  | i :: r' =>
      match nth_error tmpl i with
      | None => None
      | Some n =>
          match r' with
          | [] => Some n
          | _ =>
              match n with
              | Element _ _ _ _ children => node_at r' children
              | Text _ => None
              end
          end
      end
  end.

Definition open_of (n : Node) : option bool :=
  match n with
  | Element _ _ _ o _ => o
  | Text _ => None
  end.

Definition children_of (n : Node) : list Node :=
  match n with
  | Element _ _ _ _ children => children
  | Text _ => []
  end.

(** The selector of the template [_renderScore] clones: the audit one for
    an argument that has a [result], the category one otherwise. *)
Definition score_template_selector (auditOrCategory : AuditJSON + CategoryJSON)
  : string :=
  match auditOrCategory with
  | inl _ => "#tmpl-lighthouse-audit-score"
  | inr _ => "#tmpl-lighthouse-category-score"
  end.

End RenderSpec.

(** ** Sample reports for the renderer *)

Module RenderSamples.

Import Samples ReportRenderer.

(** A list with a header and two items, the second a block. *)
Definition list_details : DetailsJSON :=
  Details "list" None (Some (Details "text" (Some "Header") None None))
    (Some [Details "text" (Some "one") None None;
           Details "block" None None
             (Some [Details "text" (Some "two") None None])]).

(** What [_renderDetails] makes of it. *)
Definition list_details_element : Node :=
  Element "details" ["lighthouse-list"] [] None
    [Element "summary" ["lighthouse-list__header"] [] None [Text "Header"];
     Element "div" ["lighthouse-list__items"] [] None
       [Element "div" ["lighthouse-text"] [] None [Text "one"];
        Element "div" ["lighthouse-block"] [] None
          [Element "div" ["lighthouse-text"] [] None [Text "two"]]]].

(** An audit of score 92 whose result has these details. *)
Definition detailed_audit : AuditJSON :=
  sample_audit (sample_result (Some "3") None (Some list_details)).

Definition detailed_report : ReportJSON :=
  {| reportCategories := [sample_category [detailed_audit]] |}.

(** The score fragment of that audit, from the sample audit template. *)
Definition detailed_audit_score : Fragment :=
  [Element "div" ["lighthouse-score"] [] None
     [Element "div"
        ["lighthouse-score__value"; "lighthouse-score__value--fail";
         "lighthouse-score__value--binary"] [] None [Text "92"];
      Element "details" ["lighthouse-score__header"] [] (Some true)
        [Element "summary" [] [] None
           [Element "div" ["lighthouse-score__title"] [] None
              [Text "desc:  3"]];
         Element "div" ["lighthouse-score__description"] [] None
           [Text "help"];
         list_details_element]]].

(** The score fragment of the sample category. *)
Definition sample_category_score : Fragment :=
  [Element "div" ["lighthouse-score"] [] None
     [Element "div"
        ["lighthouse-score__value"; "lighthouse-score__value--fail";
         "lighthouse-score__value--category"] [] None [Text "92"];
      Element "div" ["lighthouse-score__header"] [] None
        [Element "div" ["lighthouse-score__title"] [] None [Text "Perf"];
         Element "div" ["lighthouse-score__description"] [] None
           [Text "Performance"]]]].

(** The element [renderReport] returns for [detailed_report]. *)
Definition detailed_report_element : Node :=
  Element "div" ["lighthouse-report"] [] None
    [Element "div" ["lighthouse-category"] [] None
       (sample_category_score
        ++ [Element "div" ["lighthouse-audit"] [] None
              detailed_audit_score])].

(** A report whose first category renders and whose second has an audit
    with details of the unknown type [graph]. *)
Definition second_fails_report : ReportJSON :=
  {| reportCategories :=
       sample_category [] :: reportCategories graph_report |}.

(** A document without templates. *)
Definition bare_host : Host :=
  {| templates := [];
     toLocaleString := sample_toLocaleString;
     stack := sample_stack |}.

End RenderSamples.
(** ** Numbers: basic facts *)

Lemma num_or_zero_not_nan (x : number) : is_nan (num_or x zero) = false.
Proof. destruct x; reflexivity. Qed.

Lemma num_or_zero_falsy (x : number) :
  is_zero x || is_nan x = true -> num_or x zero = zero.
Proof. destruct x; simpl; intros E; try reflexivity; discriminate E. Qed.

Lemma num_or_zero_truthy (x : number) :
  is_zero x || is_nan x = false -> num_or x zero = x.
Proof. destruct x; simpl; intros E; try reflexivity; discriminate E. Qed.

Lemma num_div_by_zero (x w : number) :
  is_zero w = true ->
  (is_zero x || is_nan x = true /\ num_div x w = NaN) \/
  (is_zero x || is_nan x = false /\ is_infinite (num_div x w) = true).
Proof.
  destruct w; simpl; intros E; try discriminate E.
  destruct x; simpl; auto.
Qed.

(** ** Strings: basic facts *)

Lemma append_nil_r s : s ++ "" = s.
Proof. induction s; simpl; congruence. Qed.

Lemma append_assoc a b c : (a ++ b) ++ c = a ++ (b ++ c).
Proof. induction a; simpl; congruence. Qed.

Lemma length_append a b : String.length (a ++ b) = String.length a + String.length b.
Proof. induction a; simpl; congruence. Qed.

Lemma prefix_app a s : prefix a s = true <-> exists rest, s = a ++ rest.
Proof.
  revert s. induction a as [|c a IH]; intros s.
  - destruct s; simpl; split; eauto.
  - destruct s as [|c' s]; simpl.
    + split; [discriminate|]. intros [rest E]. discriminate E.
    + destruct (ascii_dec c c') as [->|Hne].
      * rewrite IH. split; intros [rest E]; exists rest; congruence.
      * split; [discriminate|]. intros [rest E]. congruence.
Qed.

(** ** Rounding to an integer *)

Section Rounding.
Local Open Scope Z_scope.

Lemma iter_pos_invariant {A} (f : A -> A) (P : A -> Prop) :
  (forall x, P x -> P (f x)) -> forall p x, P x -> P (iter_pos f p x).
Proof.
  intros Hf. induction p as [p IH|p IH|]; intros x Hx; simpl; auto.
Qed.

Lemma shr_1_nonneg mrs : 0 <= shr_m mrs -> 0 <= shr_m (shr_1 mrs).
Proof.
  destruct mrs as [m r s]; simpl. destruct m as [|p|p]; simpl; try lia.
  - destruct p; simpl; lia.
Qed.

Lemma shr_nonneg mrs e n : 0 <= shr_m mrs -> 0 <= shr_m (fst (shr mrs e n)).
Proof.
  intros Hm. destruct n; simpl; try assumption.
  apply iter_pos_invariant; [apply shr_1_nonneg | assumption].
Qed.

Lemma shr_exponent mrs e n : e <= snd (shr mrs e n).
Proof. destruct n; simpl; lia. Qed.

Lemma shr_record_of_loc_m m l : shr_m (shr_record_of_loc m l) = m.
Proof. destruct l as [|[| |]]; reflexivity. Qed.

Lemma round_nearest_even_nonneg m l : 0 <= m -> 0 <= round_nearest_even m l.
Proof.
  intros Hm. destruct l as [|[| |]]; simpl; try lia.
  destruct (Z.even m); lia.
Qed.

(** The result of rounding a non-negative mantissa is a zero, an infinity,
    or a finite number whose exponent is not below the given one. *)
Lemma binary_round_aux_shape sx mx ex lx :
  0 <= mx ->
  match binary_round_aux prec emax sx mx ex lx with
  | S754_zero _ | S754_infinity _ => True
  | S754_finite _ _ e => ex <= e
  | S754_nan => False
  end.
Proof.
  intros Hm. unfold binary_round_aux, shr_fexp.
  set (r1 := shr (shr_record_of_loc mx lx) ex _).
  assert (H1 : 0 <= shr_m (fst r1))
    by (apply shr_nonneg; rewrite shr_record_of_loc_m; assumption).
  assert (E1 : ex <= snd r1) by apply shr_exponent.
  destruct r1 as [mrs' e']; simpl in H1, E1.
  set (m2 := round_nearest_even _ _).
  assert (H2 : 0 <= m2) by (apply round_nearest_even_nonneg; assumption).
  set (r2 := shr (shr_record_of_loc m2 loc_Exact) e' _).
  assert (H3 : 0 <= shr_m (fst r2))
    by (apply shr_nonneg; simpl; assumption).
  assert (E2 : e' <= snd r2) by apply shr_exponent.
  destruct r2 as [mrs'' e'']; simpl in H3, E2.
  destruct (shr_m mrs'') as [|p|p]; try exact I; [|lia].
  destruct (e'' <=? emax - prec); [lia | exact I].
Qed.

Lemma Zpos_iter_xO m k : Z.pos (Pos.iter xO m k) = Z.pos m * 2 ^ Z.pos k.
Proof.
  induction k as [|k IH] using Pos.peano_ind.
  - simpl. lia.
  - rewrite Pos.iter_succ, Pos2Z.inj_xO, IH, Pos2Z.inj_succ, Z.pow_succ_r; lia.
Qed.

Lemma digits2_pos_iter_xO m k :
  Z.pos (digits2_pos (Pos.iter xO m k)) = Z.pos (digits2_pos m) + Z.pos k.
Proof.
  induction k as [|k IH] using Pos.peano_ind.
  - simpl. lia.
  - rewrite Pos.iter_succ. simpl digits2_pos. lia.
Qed.

Lemma fexp_eq e : fexp prec emax e = Z.max (e - 53) (-1074).
Proof. reflexivity. Qed.

(** A mantissa that already has the exponent its size calls for is kept. *)
Lemma binary_round_aux_exact sx mz ez :
  fexp prec emax (Z.pos (digits2_pos mz) + ez) = ez ->
  binary_round_aux prec emax sx (Z.pos mz) ez loc_Exact =
  if ez <=? emax - prec then S754_finite sx mz ez else S754_infinity sx.
Proof.
  intros E. unfold binary_round_aux, shr_fexp. simpl Zdigits2.
  rewrite E, Z.sub_diag.
  cbn [shr shr_record_of_loc loc_of_shr_record round_nearest_even
       shr_m shr_r shr_s Zdigits2].
  rewrite E, Z.sub_diag. reflexivity.
Qed.

Lemma binary_round_integer s m :
  let r := binary_round prec emax s m 0 in
  is_integer r || is_infinite r = true.
Proof.
  unfold binary_round, shl_align.
  set (f := fexp prec emax (Z.pos (digits2_pos m) + 0)).
  assert (Hf : f = Z.max (Z.pos (digits2_pos m) - 53) (-1074))
    by (unfold f; rewrite fexp_eq; f_equal; lia).
  destruct (f - 0) as [|k|k] eqn:Ek.
  - pose proof (binary_round_aux_shape s (Z.pos m) 0 loc_Exact) as Hs.
    destruct (binary_round_aux prec emax s (Z.pos m) 0 loc_Exact);
      simpl in *; try reflexivity; [contradiction Hs; lia|].
    destruct (0 <=? e) eqn:E; [reflexivity|]. apply Z.leb_gt in E. lia.
  - pose proof (binary_round_aux_shape s (Z.pos m) 0 loc_Exact) as Hs.
    destruct (binary_round_aux prec emax s (Z.pos m) 0 loc_Exact);
      simpl in *; try reflexivity; [contradiction Hs; lia|].
    destruct (0 <=? e) eqn:E; [reflexivity|]. apply Z.leb_gt in E. lia.
  - assert (Ef : f = Z.neg k) by lia.
    rewrite binary_round_aux_exact.
    + destruct (f <=? emax - prec) eqn:E; [|reflexivity].
      simpl. rewrite Ef at 1. simpl.
      replace (- f) with (Z.pos k) by lia.
      rewrite Zpos_iter_xO, Z.mod_mul by (apply Z.pow_nonzero; lia).
      reflexivity.
    + rewrite digits2_pos_iter_xO, fexp_eq. lia.
Qed.

Lemma Z2SF_integer n : is_integer (Z2SF n) || is_infinite (Z2SF n) = true.
Proof.
  destruct n as [|p|p]; [reflexivity| |]; apply binary_round_integer.
Qed.

(** [Math.round] of a number other than NaN is an integer or an infinity. *)
Lemma Math_round_integer x :
  is_nan x = false ->
  is_integer (Math_round x) || is_infinite (Math_round x) = true.
Proof.
  destruct x as [s|s| |s m e]; simpl; intros Hx; try reflexivity;
    try discriminate Hx.
  destruct (0 <=? e) eqn:E.
  - simpl. rewrite E. reflexivity.
  - match goal with |- context [if ?c then _ else _] => destruct c end.
    + reflexivity.
    + apply Z2SF_integer.
Qed.

Lemma Math_round_nan x : is_nan (Math_round x) = true -> is_nan x = true.
Proof.
  intros H. destruct (is_nan x) eqn:E; [reflexivity|].
  pose proof (Math_round_integer x E) as I.
  destruct (Math_round x); simpl in *; discriminate.
Qed.

End Rounding.

Example StringToNumber_examples :
  StringToNumber "" = zero /\
  StringToNumber " 12 " = Z2SF 12 /\
  StringToNumber "0x1F" = Z2SF 31 /\
  StringToNumber "1e3" = Z2SF 1000 /\
  StringToNumber "-Infinity" = neg_Infinity /\
  StringToNumber "n/a" = NaN /\
  StringToNumber "12px" = NaN.
Proof. repeat split. Qed.

Example Math_round_examples :
  Math_round (StringToNumber "2.5") = Z2SF 3 /\
  Math_round (StringToNumber "-2.5") = Z2SF (-2) /\
  Math_round (StringToNumber "79.5") = Z2SF 80 /\
  Math_round (StringToNumber "79.49") = Z2SF 79 /\
  Math_round (StringToNumber "-0.5") = neg_zero /\
  Math_round Infinity = Infinity.
Proof. repeat split. Qed.

(** ** arithmeticMean *)

Module ArithmeticMeanFacts.

Import ReportGeneratorV2.

Section Facts.
Context {A : Type} `{ScoreWeight A}.

Lemma arithmeticMean_nil : arithmeticMean (@nil A) = zero.
Proof. reflexivity. Qed.

Lemma arithmeticMean_not_nan (items : list A) :
  is_nan (arithmeticMean items) = false.
Proof. unfold arithmeticMean. apply num_or_zero_not_nan. Qed.

Lemma coerce_not_nan (v : value) : is_nan (coerce v) = false.
Proof. apply num_or_zero_not_nan. Qed.

(** Folding from totals whose weight is a zero and whose sum is a zero
    or NaN, over items whose coerced weights are all zero, keeps both. *)
Lemma fold_zero_weights (items : list A) :
  Forall (fun it => is_zero (coerce (item_weight it)) = true) items ->
  forall t : Totals,
    is_zero (total_weight t) = true ->
    is_zero (total_sum t) || is_nan (total_sum t) = true ->
    let r := fold_left reduce_step items t in
    is_zero (total_weight r) = true /\
    is_zero (total_sum r) || is_nan (total_sum r) = true.
Proof.
  induction 1 as [|it rest Hw _ IH]; intros t Ht Hs; simpl.
  - split; assumption.
  - apply IH; unfold reduce_step; simpl.
    + destruct (total_weight t) as [sw| | |]; try discriminate Ht.
      destruct (coerce (item_weight it)) as [s'| | |]; try discriminate Hw.
      destruct sw, s'; reflexivity.
    + destruct (coerce (item_weight it)) as [s'| | |]; try discriminate Hw.
      destruct (total_sum t) as [ss| | |]; try discriminate Hs;
        destruct (coerce (item_score it)) as [sc|sc| |sc m e];
        try reflexivity; destruct ss, sc, s'; reflexivity.
Qed.

(** When every coerced weight is zero the mean is exactly [0], whatever
    the scores. *)
Lemma arithmeticMean_all_weights_zero (items : list A) :
  Forall (fun it => is_zero (coerce (item_weight it)) = true) items ->
  arithmeticMean items = zero.
Proof.
  intros Hall. unfold arithmeticMean, reduce_items.
  destruct (fold_zero_weights items Hall
              {| total_weight := zero; total_sum := zero |}
              eq_refl eq_refl) as [Hw Hs].
  set (r := fold_left reduce_step items _) in *.
  destruct (num_div_by_zero (total_sum r) _ Hw) as [[_ E]|[E _]].
  - rewrite E. reflexivity.
  - rewrite E in Hs. discriminate Hs.
Qed.

(** C2 (as amended). When the coerced weights sum to zero,
    [arithmeticMean] returns exactly [0] if the weighted sum of the
    scores is itself a zero or NaN -- as it is when every coerced weight
    is zero -- and returns an infinity if the weighted sum is any other
    number (weights that cancel); it never returns NaN. *)
Theorem arithmeticMean_zero_total_weight (items : list A) :
  is_zero (total_weight (reduce_items items)) = true ->
  let sum := total_sum (reduce_items items) in
  (is_zero sum || is_nan sum = true -> arithmeticMean items = zero) /\
  (is_zero sum || is_nan sum = false ->
   is_infinite (arithmeticMean items) = true) /\
  (Forall (fun it => is_zero (coerce (item_weight it)) = true) items ->
   arithmeticMean items = zero) /\
  is_nan (arithmeticMean items) = false.
Proof.
  intros Hw sum.
  split; [|split; [|split;
    [apply arithmeticMean_all_weights_zero | apply arithmeticMean_not_nan]]];
    unfold arithmeticMean; fold sum;
    destruct (num_div_by_zero sum _ Hw) as [[E D]|[E D]]; rewrite E.
  - intros _. rewrite D. reflexivity.
  - intros F. discriminate F.
  - intros F. discriminate F.
  - intros _. destruct (num_div sum _); try discriminate D. reflexivity.
Qed.
End Facts.

Import Spec Samples.

Example arithmeticMean_examples :
  arithmeticMean [item 100 1] = Z2SF 100 /\
  arithmeticMean [item 0 1; item 100 1] = Z2SF 50 /\
  arithmeticMean [item 50 1; item 90 3] = Z2SF 80 /\
  arithmeticMean
    [{| score := VString "n/a"; weight := VNumber (Z2SF 1) |}; item 100 1]
  = Z2SF 50.
Proof. repeat split. Qed.

Lemma arithmeticMean_zero_total_weight_witness :
  is_zero (total_weight (reduce_items zero_weight_items)) = true /\
  arithmeticMean zero_weight_items = zero.
Proof.
  assert (Hw : is_zero (total_weight (reduce_items zero_weight_items)) = true)
    by reflexivity.
  split; [exact Hw|].
  destruct (arithmeticMean_zero_total_weight zero_weight_items Hw)
    as (Hzero & _).
  apply Hzero. reflexivity.
Defined.

(** C2, counterexample. The weights [1] and [-1] sum to zero and the mean
    of scores [10] and [20] is [-Infinity], not [0]. *)
Lemma arithmeticMean_cancelling_weights :
  is_zero (total_weight (reduce_items cancelling_items)) = true /\
  arithmeticMean cancelling_items = neg_Infinity /\
  arithmeticMean cancelling_items <> zero.
Proof. repeat split; try reflexivity. intros E; discriminate E. Qed.

Lemma coerce_zero_field (v : value) : coerce (zero_field v) = coerce v.
Proof.
  unfold zero_field.
  destruct v as [| |b|n|s]; simpl; try reflexivity.
  - destruct n; reflexivity.
  - unfold coerce; simpl.
    destruct (StringToNumber s) eqn:E; simpl; rewrite ?E; reflexivity.
Qed.

Lemma reduce_step_zero_out (t : Totals) (it : Item) :
  reduce_step t (zero_out it) = reduce_step t it.
Proof.
  unfold reduce_step, zero_out; simpl. rewrite !coerce_zero_field. reflexivity.
Qed.

Lemma fold_zero_out (items : list Item) (t : Totals) :
  fold_left reduce_step (map zero_out items) t = fold_left reduce_step items t.
Proof.
  revert t. induction items as [|it rest IH]; intros t; simpl.
  - reflexivity.
  - rewrite reduce_step_zero_out. apply IH.
Qed.

(** C5 (as amended). A score or weight that is [null], [undefined], [NaN]
    or a non-numeric string counts as [0] for its item: the mean is the
    mean of the items with [0] written in those fields; and the mean is
    never NaN. (Infinite fields are used as they are.) *)
Theorem arithmeticMean_non_numeric_as_zero (items : list Item) :
  arithmeticMean items = arithmeticMean (map zero_out items) /\
  is_nan (arithmeticMean items) = false.
Proof.
  split.
  - unfold arithmeticMean, reduce_items. rewrite fold_zero_out. reflexivity.
  - apply arithmeticMean_not_nan.
Qed.

(** C5, counterexample. An infinite score is not a finite number, yet it
    is not treated as [0]: the mean is [Infinity], where a score of [0]
    gives [0]. *)
Lemma arithmeticMean_infinite_score :
  is_finite (ToNumber (VNumber Infinity)) = false /\
  arithmeticMean infinite_score_items = Infinity /\
  arithmeticMean [item 0 1] = zero /\
  is_infinite (arithmeticMean infinite_score_items) = true.
Proof. repeat split. Qed.

End ArithmeticMeanFacts.

(** ** generateReportJson *)

Module GenerateReportFacts.

Import ReportGeneratorV2 Spec Samples.

Lemma array_map_inr {A B} (f : A -> M B) (l : list A) (ys : list B) :
  array_map f l = inr ys <-> Forall2 (fun x y => f x = inr y) l ys.
Proof.
  revert ys. induction l as [|x l IH]; intros ys; simpl.
  - split.
    + intros E. injection E as <-. constructor.
    + intros F. inversion F. reflexivity.
  - destruct (f x) as [e|y] eqn:Ex; simpl.
    + split; [intros E; discriminate E|].
      intros F. inversion F; subst. congruence.
    + destruct (array_map f l) as [e|ys'] eqn:El; simpl.
      * split; [intros E; discriminate E|].
        intros F. inversion F as [|? y' ? ys'' Hy Hl]; subst.
        apply IH in Hl. discriminate Hl.
      * split.
        -- intros E. injection E as <-. constructor; [assumption|].
           apply IH. reflexivity.
        -- intros F. inversion F as [|? y' ? ys'' Hy Hl]; subst.
           apply IH in Hl. congruence.
Qed.

Lemma array_map_total {A B} (f : A -> M B) (l : list A) :
  Forall (fun x => exists y, f x = inr y) l ->
  exists ys, array_map f l = inr ys.
Proof.
  induction 1 as [|x l [y Hy] _ [ys IH]]; simpl.
  - exists []. reflexivity.
  - exists (y :: ys). rewrite Hy; simpl. rewrite IH. reflexivity.
Qed.

Lemma array_map_ext {A B} (f g : A -> M B) (l : list A) :
  (forall x, f x = g x) -> array_map f l = array_map g l.
Proof.
  intros E. induction l as [|x l IH]; simpl; [reflexivity|].
  rewrite E, IH. reflexivity.
Qed.

Lemma get_property_keys {V} (o : JSObject V) (key : string) :
  In key (Object_keys o) -> exists v, get_property o key = Some v /\ In (key, v) o.
Proof.
  induction o as [|[k v] o IH]; simpl; [contradiction|].
  intros Hin. destruct (String.eqb_spec k key) as [->|Hne].
  - exists v. auto.
  - destruct Hin as [E|Hin]; [contradiction|].
    destruct (IH Hin) as [v' [G I]]. exists v'. auto.
Qed.

Lemma get_property_NoDup {V} (o : JSObject V) :
  NoDup (Object_keys o) ->
  Forall (fun kv => get_property o (fst kv) = Some (snd kv)) o.
Proof.
  induction o as [|[k v] o IH]; simpl; intros ND; constructor.
  - simpl. rewrite String.eqb_refl. reflexivity.
  - inversion ND as [|? ? Hk ND']; subst.
    specialize (IH ND'). rewrite Forall_forall in *.
    intros [k' v'] Hin; simpl.
    destruct (String.eqb_spec k k') as [->|_].
    + contradiction Hk. apply (in_map fst) in Hin. exact Hin.
    + apply (IH _ Hin).
Qed.

Lemma Forall2_map_l {A B C} (g : A -> B) (R : B -> C -> Prop) l ys :
  Forall2 R (map g l) ys <-> Forall2 (fun x y => R (g x) y) l ys.
Proof.
  revert ys. induction l as [|x l IH]; intros ys; simpl; split; intros F;
    inversion F; subst; constructor; try assumption; apply IH; assumption.
Qed.

Lemma Forall2_Forall_l {A B} (P : A -> Prop) (R Q : A -> B -> Prop) l ys :
  Forall P l -> (forall x y, P x -> R x y -> Q x y) ->
  Forall2 R l ys -> Forall2 Q l ys.
Proof.
  intros HP HQ F. induction F; inversion HP; subst; constructor; auto.
Qed.

Lemma Forall2_Forall_r {A B} (R : A -> B -> Prop) (Q : B -> Prop) l ys :
  (forall x y, R x y -> Q y) -> Forall2 R l ys -> Forall Q ys.
Proof. intros HQ F. induction F; constructor; eauto. Qed.

(** What a successful [score_audit] returns. *)
Lemma score_audit_inr res d a :
  score_audit res d = inr a ->
  exists result,
    get_property res (def_id d) = Some result /\
    a = {| audit_id := def_id d; audit_weight := def_weight d;
           audit_score := auditScore_of result; audit_result := result |}.
Proof.
  unfold score_audit. destruct (get_property res (def_id d)) as [r|]; simpl.
  - intros E. injection E as <-. eauto.
  - intros E. discriminate E.
Qed.

(** What a successful [score_category] returns. *)
Lemma score_category_inr cfg res key c :
  score_category cfg res key = inr c ->
  exists d audits,
    get_property (config_categories cfg) key = Some d /\
    array_map (score_audit res) (def_audits d) = inr audits /\
    c = {| category_name := def_name d;
           category_description := def_description d;
           category_weight := def_category_weight d;
           category_score := Math_round (arithmeticMean audits);
           category_audits := audits |}.
Proof.
  unfold score_category.
  destruct (get_property (config_categories cfg) key) as [d|]; simpl;
    [|intros E; discriminate E].
  destruct (array_map (score_audit res) (def_audits d)) as [e|audits] eqn:Ea;
    simpl; intros E; [discriminate E|].
  injection E as <-. exists d, audits. auto.
Qed.

Lemma generateReportJson_inr cfg res tree :
  generateReportJson cfg res = inr tree ->
  array_map (score_category cfg res) (Object_keys (config_categories cfg))
    = inr (report_categories tree) /\
  report_score tree = arithmeticMean (report_categories tree).
Proof.
  unfold generateReportJson.
  destruct (array_map _ _) as [e|cs]; simpl; intros E; [discriminate E|].
  injection E as <-. auto.
Qed.

Example generateReportJson_perf :
  generateReportJson perf_config perf_results = inr perf_tree.
Proof. reflexivity. Qed.

(** The mean 70.5 of the first category is rounded to 71; the overall
    score 75.5 is not rounded. *)
Example generateReportJson_two_categories :
  category_scores (generateReportJson two_category_config two_category_results)
  = Some [Z2SF 71; Z2SF 80] /\
  overall_score (generateReportJson two_category_config two_category_results)
  = Some (StringToNumber "75.5").
Proof. split; reflexivity. Qed.

Example auditScore_of_examples :
  auditScore_of (result_with_score (VBoolean true)) = Z2SF 100 /\
  auditScore_of (result_with_score (VBoolean false)) = zero /\
  auditScore_of (result_with_score VNull) = zero /\
  auditScore_of (result_with_score VUndefined) = zero /\
  auditScore_of (result_with_score (VString "87")) = Z2SF 87.
Proof. repeat split. Qed.

Lemma auditScore_of_spec (r : RawAuditResult) :
  normalized_as_specified (result_score r) (auditScore_of r).
Proof.
  unfold normalized_as_specified, auditScore_of, coerce.
  destruct (result_score r) as [| |b|n|s]; simpl.
  - repeat split; try discriminate; try reflexivity.
  - repeat split; try discriminate; try reflexivity.
  - repeat split; try discriminate.
    + intros E. injection E as ->. reflexivity.
    + intros E. injection E as ->. reflexivity.
    + intros Hb. contradiction (Hb b). reflexivity.
  - repeat split; try discriminate; destruct n; simpl; try discriminate;
      reflexivity.
  - repeat split; try discriminate; destruct (StringToNumber s); simpl;
      try discriminate; reflexivity.
Qed.

(** C7. In the output of [generateReportJson] every audit carries the
    result found under its id, and its score is normalized from
    [result.score]: [100] for [true], [0] for [false], the coerced number
    when that is finite and not zero, and [0] when the score is absent,
    [null], [NaN] or a non-numeric string. *)
Theorem generateReportJson_normalizes_scores cfg res tree :
  generateReportJson cfg res = inr tree ->
  Forall
    (fun c =>
       Forall
         (fun a =>
            get_property res (audit_id a) = Some (audit_result a) /\
            normalized_as_specified (result_score (audit_result a))
              (audit_score a))
         (category_audits c))
    (report_categories tree).
Proof.
  intros E. apply generateReportJson_inr in E as [E _].
  apply array_map_inr in E.
  apply (Forall2_Forall_r _ _ _ _) with (2 := E).
  intros key c Hc. apply score_category_inr in Hc as (d & audits & _ & Ha & ->).
  simpl. apply array_map_inr in Ha.
  apply (Forall2_Forall_r _ _ _ _) with (2 := Ha).
  intros ad a Hs. apply score_audit_inr in Hs as (r & G & ->). simpl.
  split; [exact G | apply auditScore_of_spec].
Qed.

Lemma generateReportJson_normalizes_scores_witness :
  Forall
    (fun c =>
       Forall
         (fun a =>
            get_property perf_results (audit_id a) = Some (audit_result a) /\
            normalized_as_specified (result_score (audit_result a))
              (audit_score a))
         (category_audits c))
    (report_categories perf_tree).
Proof.
  apply (generateReportJson_normalizes_scores perf_config perf_results).
  vm_compute. reflexivity.
Defined.

(** C4 (as amended). In the output of [generateReportJson] the score of
    each category is [Math.round] (ties toward +Infinity) of the weighted
    mean of its audits, and is an integer or an infinity; the overall score
    is the weighted mean of the categories, not rounded. *)
Theorem generateReportJson_scores cfg res tree :
  generateReportJson cfg res = inr tree ->
  Forall
    (fun c =>
       category_score c = Math_round (arithmeticMean (category_audits c)) /\
       is_integer (category_score c) || is_infinite (category_score c) = true)
    (report_categories tree) /\
  report_score tree = arithmeticMean (report_categories tree).
Proof.
  intros E. apply generateReportJson_inr in E as [E Ho].
  split; [|exact Ho].
  apply array_map_inr in E.
  apply (Forall2_Forall_r _ _ _ _) with (2 := E).
  intros key c Hc. apply score_category_inr in Hc as (d & audits & _ & _ & ->).
  simpl. split; [reflexivity|].
  apply Math_round_integer, ArithmeticMeanFacts.arithmeticMean_not_nan.
Qed.

Lemma generateReportJson_scores_witness :
  Forall
    (fun c =>
       category_score c = Math_round (arithmeticMean (category_audits c)) /\
       is_integer (category_score c) || is_infinite (category_score c) = true)
    (report_categories perf_tree) /\
  report_score perf_tree = arithmeticMean (report_categories perf_tree).
Proof.
  apply (generateReportJson_scores perf_config perf_results).
  vm_compute. reflexivity.
Defined.

(** C4, counterexample. A single audit of weight 1 whose result has the
    score 200 gives its category the score 200, above 100; and audits whose
    weights 1 and -1 cancel give their category the score [-Infinity],
    which is no integer. *)
Lemma generateReportJson_score_above_100 :
  generateReportJson single_config over_results = inr over_tree /\
  map category_score (report_categories over_tree) = [Z2SF 200] /\
  num_ge (Z2SF 100) (Z2SF 200) = false /\
  category_scores (generateReportJson cancelling_config cancelling_results)
  = Some [neg_Infinity] /\
  is_integer neg_Infinity = false.
Proof. repeat split. Qed.

(** C8. When every audit id listed in the configuration has an entry in
    the results, [generateReportJson] returns a score tree, whatever the
    score of a result and the weight of a definition hold. *)
Theorem generateReportJson_total cfg res :
  results_present cfg res ->
  exists tree, generateReportJson cfg res = inr tree.
Proof.
  intros Hp. unfold generateReportJson.
  destruct (array_map_total (score_category cfg res)
              (Object_keys (config_categories cfg))) as [cs Hcs].
  - apply Forall_forall. intros key Hin.
    apply get_property_keys in Hin as (d & G & Hin).
    unfold score_category. rewrite G. simpl.
    destruct (array_map_total (score_audit res) (def_audits d)) as [as_ Ha].
    + unfold results_present in Hp. rewrite Forall_forall in Hp.
      specialize (Hp _ Hin). simpl in Hp.
      apply Forall_forall. intros a Ha. rewrite Forall_forall in Hp.
      specialize (Hp _ Ha). unfold score_audit.
      destruct (get_property res (def_id a)) as [r|]; [|contradiction].
      eexists. reflexivity.
    + rewrite Ha. simpl. eexists. reflexivity.
  - rewrite Hcs. simpl. eexists. reflexivity.
Qed.

Lemma generateReportJson_total_witness :
  results_present perf_config perf_results /\
  exists tree, generateReportJson perf_config perf_results = inr tree.
Proof.
  assert (Hp : results_present perf_config perf_results).
  { repeat constructor; simpl; discriminate. }
  split; [exact Hp|].
  apply (generateReportJson_total perf_config perf_results Hp).
Defined.

Lemma score_audit_same_entries res res' d :
  same_entries res res' -> score_audit res' d = score_audit res d.
Proof. intros S. unfold score_audit. rewrite (S (def_id d)). reflexivity. Qed.

Lemma score_category_same_entries cfg res res' key :
  same_entries res res' ->
  score_category cfg res' key = score_category cfg res key.
Proof.
  intros S. unfold score_category.
  destruct (get_property (config_categories cfg) key) as [d|]; [|reflexivity].
  rewrite (array_map_ext (score_audit res') (score_audit res));
    [reflexivity|].
  intros a. apply score_audit_same_entries, S.
Qed.

(** C6. The categories of the output follow the categories of the
    configuration, in its order, each carrying its definition with its
    audits in the order of the definition; and results that hold the same
    value under every key give the same output, whatever the order of
    their keys. *)
Theorem generateReportJson_order cfg res tree :
  NoDup (Object_keys (config_categories cfg)) ->
  generateReportJson cfg res = inr tree ->
  Forall2 (fun kv c => category_of (snd kv) c)
    (config_categories cfg) (report_categories tree) /\
  (forall res', same_entries res res' ->
                generateReportJson cfg res' = inr tree).
Proof.
  intros ND E. split.
  - apply generateReportJson_inr in E as [E _].
    apply array_map_inr in E. unfold Object_keys in E.
    apply Forall2_map_l in E.
    apply (Forall2_Forall_l _ _ _ _ _ (get_property_NoDup _ ND)) with (2 := E).
    intros [k d] c G Hc; simpl in *.
    apply score_category_inr in Hc as (d' & audits & G' & Ha & ->).
    assert (d' = d) by congruence. subst d'.
    unfold category_of; simpl. repeat split.
    apply array_map_inr in Ha.
    apply (Forall2_Forall_l (fun _ => True) _ _ _ _) with (3 := Ha).
    + apply Forall_forall. auto.
    + intros ad a _ Hs. apply score_audit_inr in Hs as (r & _ & ->).
      split; reflexivity.
  - intros res' S. rewrite <- E. unfold generateReportJson.
    rewrite (array_map_ext (score_category cfg res') (score_category cfg res));
      [reflexivity|].
    intros key. apply score_category_same_entries, S.
Qed.

Lemma generateReportJson_order_witness :
  Forall2 (fun kv c => category_of (snd kv) c)
    (config_categories perf_config) (report_categories perf_tree) /\
  generateReportJson perf_config perf_results_reordered = inr perf_tree.
Proof.
  destruct (generateReportJson_order perf_config perf_results perf_tree)
    as [Ho Hs].
  - repeat constructor. simpl. intros [].
  - vm_compute. reflexivity.
  - split; [exact Ho|]. apply Hs.
    intros key. unfold perf_results, perf_results_reordered, get_property.
    destruct (String.eqb_spec "A" key) as [EA|EA],
             (String.eqb_spec "B" key) as [EB|EB]; try reflexivity.
    subst key. discriminate EB.
Defined.

End GenerateReportFacts.

(** ** replaceStrings *)

Module ReplaceStringsFacts.

Import ReportGeneratorV2 Spec Samples.

Lemma split_from_skip sep pre rest :
  split_from sep (String.length pre) (pre ++ rest) = split_from sep 0 rest.
Proof. induction pre as [|c pre IH]; simpl; [reflexivity | exact IH]. Qed.

(** The three cases of scanning for a separator that is not empty. *)
Lemma split_from_match c sep' rest :
  split_from (String c sep') 0 (String c sep' ++ rest)
  = "" :: split_from (String c sep') 0 rest.
Proof.
  set (sep := String c sep').
  assert (P : prefix sep (sep ++ rest) = true) by (apply prefix_app; eauto).
  unfold sep at 2. simpl append. cbn [split_from].
  change (String c (sep' ++ rest)) with (sep ++ rest). rewrite P.
  unfold sep at 2. simpl String.length.
  replace (S (String.length sep') - 1) with (String.length sep') by lia.
  rewrite split_from_skip. reflexivity.
Qed.

Lemma split_from_no_match sep c s :
  prefix sep (String c s) = false ->
  split_from sep 0 (String c s) = cons_first c (split_from sep 0 s).
Proof. intros P. cbn [split_from]. rewrite P. reflexivity. Qed.

Lemma split_from_not_nil sep k s : split_from sep k s <> [].
Proof.
  revert k. induction s as [|c s IH]; intros k; cbn [split_from];
    [discriminate|].
  destruct k; [|apply IH].
  destruct (prefix sep (String c s)); [discriminate|].
  destruct (split_from sep 0 s); discriminate.
Qed.

Lemma join_cons sep p ps :
  ps <> [] -> join sep (p :: ps) = p ++ sep ++ join sep ps.
Proof. destruct ps; [congruence | reflexivity]. Qed.

Lemma join_cons_first sep c parts :
  parts <> [] -> join sep (cons_first c parts) = String c (join sep parts).
Proof.
  destruct parts as [|p ps]; [congruence|]. intros _.
  destruct ps; reflexivity.
Qed.

(** Induction on strings by length. *)
Lemma string_length_ind (P : string -> Prop) :
  (forall s, (forall t, String.length t < String.length s -> P t) -> P s) ->
  forall s, P s.
Proof.
  intros Hstep s. remember (String.length s) as n eqn:En.
  revert s En. induction n as [n IH] using lt_wf_ind.
  intros s ->. apply Hstep. intros t Ht. apply (IH _ Ht). reflexivity.
Qed.

Lemma join_split_from sep s :
  sep <> "" -> join sep (split_from sep 0 s) = s.
Proof.
  intros Hsep. induction s as [s IH] using string_length_ind.
  destruct s as [|c s]; [reflexivity|].
  destruct (prefix sep (String c s)) eqn:P.
  - apply prefix_app in P as [rest E]. rewrite E.
    destruct sep as [|c' sep']; [congruence|].
    rewrite split_from_match, join_cons by apply split_from_not_nil.
    rewrite IH; [reflexivity|].
    rewrite E, length_append. simpl. lia.
  - rewrite split_from_no_match, join_cons_first
      by (assumption || apply split_from_not_nil).
    rewrite IH; [reflexivity | simpl; lia].
Qed.

Lemma join_split sep s : join sep (split sep s) = s.
Proof.
  destruct sep as [|c sep'].
  - simpl. induction s as [|a s IH]; [reflexivity|].
    simpl. destruct s; [reflexivity|].
    simpl in *. rewrite IH. reflexivity.
  - apply join_split_from. discriminate.
Qed.

Lemma occurs_in_refl s : occurs_in s s.
Proof. exists "", "". simpl. rewrite append_nil_r. reflexivity. Qed.

Lemma occurs_in_trans a p s : occurs_in a p -> occurs_in p s -> occurs_in a s.
Proof.
  intros (x & y & ->) (u & v & ->). exists (u ++ x), (y ++ v).
  rewrite !append_assoc. reflexivity.
Qed.

Lemma occurs_in_cons pat c p :
  occurs_in pat (String c p) ->
  prefix pat (String c p) = true \/ occurs_in pat p.
Proof.
  intros (a & b & E). destruct a as [|c' a]; simpl in E.
  - left. apply prefix_app. eauto.
  - right. injection E as _ E. exists a, b. exact E.
Qed.

Lemma occurs_in_empty pat : occurs_in pat "" -> pat = "".
Proof.
  intros (a & b & E). destruct a; [|discriminate E].
  destruct pat; [reflexivity | discriminate E].
Qed.

Lemma join_head sep q qs : exists more, join sep (q :: qs) = q ++ more.
Proof.
  destruct qs as [|q' qs].
  - exists "". simpl. rewrite append_nil_r. reflexivity.
  - eexists. reflexivity.
Qed.

Lemma In_join_occurs sep p parts : In p parts -> occurs_in p (join sep parts).
Proof.
  induction parts as [|q qs IH]; [intros []|].
  intros [->|Hin].
  - destruct (join_head sep p qs) as [more ->]. exists "", more. reflexivity.
  - destruct qs as [|q' qs']; [destruct Hin|].
    rewrite join_cons by discriminate.
    destruct (IH Hin) as (a & b & ->).
    exists (q ++ sep ++ a), b. rewrite !append_assoc. reflexivity.
Qed.

(** Every piece of a split is a part of the string that was split. *)
Lemma split_pieces_occur sep s p : In p (split sep s) -> occurs_in p s.
Proof.
  intros Hin. rewrite <- (join_split sep s) at 1.
  apply In_join_occurs, Hin.
Qed.

(** No piece of a split contains the separator. *)
Lemma split_from_no_sep sep s p :
  sep <> "" -> In p (split_from sep 0 s) -> ~ occurs_in sep p.
Proof.
  intros Hsep. revert p. induction s as [s IH] using string_length_ind.
  intros p Hin Hocc. destruct s as [|c s].
  - destruct Hin as [<-|[]]. apply occurs_in_empty in Hocc. contradiction.
  - destruct (prefix sep (String c s)) eqn:P.
    + apply prefix_app in P as [rest E]. rewrite E in Hin.
      destruct sep as [|c' sep']; [congruence|].
      rewrite split_from_match in Hin. destruct Hin as [<-|Hin].
      * apply occurs_in_empty in Hocc. discriminate Hocc.
      * apply (IH rest) with (p := p); try assumption.
        rewrite E, length_append. simpl. lia.
    + rewrite split_from_no_match in Hin by assumption.
      pose proof (join_split_from sep s Hsep) as J.
      destruct (split_from sep 0 s) as [|q qs] eqn:Es;
        [contradiction (split_from_not_nil sep 0 s)|].
      assert (IHs : forall t, In t (q :: qs) -> ~ occurs_in sep t).
      { intros t Ht. apply (IH s); [simpl; lia|]. rewrite Es. exact Ht. }
      destruct Hin as [<-|Hin].
      * apply occurs_in_cons in Hocc as [Hp|Hq].
        -- apply prefix_app in Hp as [r Er].
           destruct (join_head sep q qs) as [more Em]. rewrite Em in J.
           assert (prefix sep (String c s) = true) as P'.
           { apply prefix_app. exists (r ++ more).
             rewrite <- J. change (String c (q ++ more)) with (String c q ++ more).
             rewrite Er, append_assoc. reflexivity. }
           congruence.
        -- apply (IHs q); simpl; auto.
      * apply (IHs p); simpl; auto.
Qed.

Lemma In_intercalate {A} (sep : list A) ls x :
  In x (intercalate sep ls) -> In x sep \/ exists l, In l ls /\ In x l.
Proof.
  induction ls as [|l rest IH]; [intros []|].
  destruct rest as [|l' rest'].
  - simpl. intros Hin. right. exists l. auto.
  - change (intercalate sep (l :: l' :: rest'))
      with (l ++ sep ++ intercalate sep (l' :: rest'))%list.
    rewrite !in_app_iff. intros [Hin|[Hin|Hin]].
    + right. exists l. simpl; auto.
    + left. exact Hin.
    + destruct (IH Hin) as [Hs|(l0 & Hl0 & Hx)]; [left; exact Hs|].
      right. exists l0. split; [right; exact Hl0 | exact Hx].
Qed.

Lemma layout_lit searches : forall i s t,
  In (Lit t) (layout i searches s) ->
  occurs_in t s /\
  forall pat, In pat searches -> pat <> "" -> ~ occurs_in pat t.
Proof.
  induction searches as [|srch next IH]; intros i s t Hin.
  - destruct Hin as [E|[]]. injection E as <-.
    split; [apply occurs_in_refl | intros pat []].
  - simpl in Hin. apply In_intercalate in Hin as [[E|[]]|(l & Hl & Hin)];
      [discriminate E|].
    apply in_map_iff in Hl as (part & <- & Hpart).
    apply IH in Hin as [Hocc Hfree].
    split.
    + apply occurs_in_trans with (1 := Hocc).
      apply split_pieces_occur with (1 := Hpart).
    + intros pat [<-|Hpat] Hne; [|apply Hfree; assumption].
      intros Hc. destruct srch as [|c srch']; [congruence|].
      apply (split_from_no_sep (String c srch') s part);
        [discriminate | exact Hpart |].
      apply occurs_in_trans with (1 := Hc). exact Hocc.
Qed.

Lemma fill_app texts ps qs :
  fill texts (ps ++ qs) = fill texts ps ++ fill texts qs.
Proof.
  induction ps as [|[t|i] ps IH]; simpl; [reflexivity| |];
    rewrite IH, append_assoc; reflexivity.
Qed.

Lemma fill_intercalate texts i ls :
  fill texts (intercalate [Ins i] ls)
  = join (nth i texts "") (map (fill texts) ls).
Proof.
  induction ls as [|l rest IH]; [reflexivity|].
  destruct rest as [|l' rest']; [reflexivity|].
  change (intercalate [Ins i] (l :: l' :: rest'))
    with (l ++ [Ins i] ++ intercalate [Ins i] (l' :: rest'))%list.
  rewrite !fill_app, IH. cbn [fill]. rewrite append_nil_r. reflexivity.
Qed.

Lemma nth_length_app {A} (pre : list A) x rest d :
  nth (List.length pre) (pre ++ x :: rest) d = x.
Proof. induction pre; simpl; auto. Qed.

Lemma replaceStrings_fill reps : forall pre s,
  replaceStrings s reps
  = fill (pre ++ map replacement reps)
      (layout (List.length pre) (map search reps) s).
Proof.
  induction reps as [|r next IH]; intros pre s; simpl.
  - rewrite append_nil_r. reflexivity.
  - rewrite fill_intercalate, nth_length_app, map_map. f_equal.
    apply map_ext. intros part.
    rewrite (IH (pre ++ [replacement r])%list part).
    rewrite <- app_assoc, length_app. simpl. rewrite Nat.add_1_r. reflexivity.
Qed.

Lemma fill_searches searches : forall pre s,
  fill (pre ++ searches) (layout (List.length pre) searches s) = s.
Proof.
  induction searches as [|srch next IH]; intros pre s; simpl.
  - apply append_nil_r.
  - rewrite fill_intercalate, nth_length_app, map_map.
    rewrite <- (join_split srch s) at 2. f_equal.
    rewrite <- (map_id (split srch s)) at 2.
    apply map_ext. intros part.
    specialize (IH (pre ++ [srch])%list part).
    rewrite <- app_assoc, length_app in IH. simpl in IH.
    rewrite Nat.add_1_r in IH. exact IH.
Qed.

(** C10 (as amended). The output of [replaceStrings] is the source laid
    out in pieces of kept text with the replacement strings put between
    them as they are. The layout is computed from the source and the search
    strings alone, so text that a replacement inserts is never searched;
    putting the search strings back in the places gives the source; and no
    piece of kept text contains a search string that is not empty. With no
    pair the source is returned unchanged. *)
Theorem replaceStrings_layout source reps :
  let searches := map search reps in
  let pieces := layout 0 searches source in
  replaceStrings source reps = fill (map replacement reps) pieces /\
  fill searches pieces = source /\
  (forall t pat,
     In (Lit t) pieces -> In pat searches -> pat <> "" -> ~ occurs_in pat t) /\
  replaceStrings source [] = source.
Proof.
  intros searches pieces. repeat split.
  - apply (replaceStrings_fill reps []).
  - apply (fill_searches searches []).
  - intros t pat Ht. apply (layout_lit searches 0 source t Ht).
Qed.

Lemma replaceStrings_layout_witness :
  replaceStrings "x%%JSON%%y%%JS%%" nested_replacements = "x{%%JS%%}ycode" /\
  layout 0 (map search nested_replacements) "x%%JSON%%y%%JS%%"
  = [Lit "x"; Ins 0; Lit "y"; Ins 1; Lit ""] /\
  ~ occurs_in "%%JS%%" "y".
Proof.
  pose proof (replaceStrings_layout "x%%JSON%%y%%JS%%" nested_replacements)
    as (Hfill & _ & Hfree & _).
  repeat split.
  apply (Hfree "y" "%%JS%%"); simpl; auto. discriminate.
Defined.

(** C10, counterexample. The search string [ab] of the second pair occurs
    in the source [ab], but the first pair has taken its [a]: the output is
    [Xb] and the replacement [Y] is nowhere in it. *)
Lemma replaceStrings_overlap :
  replaceStrings "ab" overlapping_replacements = "Xb" /\
  occurs_in "ab" "ab" /\
  ~ occurs_in "Y" "Xb".
Proof.
  repeat split.
  - apply occurs_in_refl.
  - intros (a & b & E).
    destruct a as [|c [|c' [|c'' a]]]; simpl in E; discriminate E.
Qed.

End ReplaceStringsFacts.

(** ** The renderer *)

Module RendererFacts.

Import ReportRenderer Spec Samples.

(** Every precision other than ['numeric'] rates as binary. *)
Lemma calculateRating_not_numeric score precision :
  precision <> "numeric" ->
  calculateRating score precision
  = if strict_eq score (Z2SF 100) then "pass" else "fail".
Proof.
  intros Hp. unfold calculateRating.
  destruct (String.eqb_spec precision "numeric"); [contradiction|reflexivity].
Qed.

(** The rating of a category is the binary one: its precision is
    ['category'], for which [calculateRating] has no thresholds. *)
Lemma score_rating_category score :
  score_rating false score
  = if strict_eq score (Z2SF 100) then "pass" else "fail".
Proof.
  unfold score_rating, score_precision.
  apply calculateRating_not_numeric. discriminate.
Qed.

(** C1, at the failing input. A category with the score 92 is rendered
    with the rating [fail] and the precision [category]; under the numeric
    precision 92 would rate [pass]. *)
Theorem renderScore_category_92 :
  _renderScore sample_host (Z2SF 92) "Perf" "Performance"
    (inr (sample_category []))
  = inr
      [Element "div" ["lighthouse-score"] [] None
         [Element "div"
            ["lighthouse-score__value"; "lighthouse-score__value--fail";
             "lighthouse-score__value--category"]
            [] None [Text "92"];
          Element "div" ["lighthouse-score__header"] [] None
            [Element "div" ["lighthouse-score__title"] [] None [Text "Perf"];
             Element "div" ["lighthouse-score__description"] [] None
               [Text "Performance"]]]] /\
  score_rating false (Z2SF 92) = "fail" /\
  calculateRating (Z2SF 92) "numeric" = "pass".
Proof. repeat split. Qed.

Example calculateRating_examples :
  calculateRating (Z2SF 92) "binary" = "fail" /\
  calculateRating (Z2SF 100) "binary" = "pass" /\
  calculateRating (Z2SF 75) "numeric" = "pass" /\
  calculateRating (Z2SF 74) "numeric" = "average" /\
  calculateRating (Z2SF 44) "numeric" = "fail" /\
  calculateRating (Z2SF 92) "grade" = "fail".
Proof. repeat split. Qed.

(** A list with no header and no item renders as a container with an
    empty items element. *)
Example _renderDetails_empty_list :
  _renderDetails (Details "list" None None (Some []))
  = inr (Element "details" ["lighthouse-list"] [] None
           [Element "div" ["lighthouse-list__items"] [] None []]).
Proof. reflexivity. Qed.

(** An audit with details, rendered on the sample host. *)
Example _renderAudit_example :
  _renderAudit sample_host
    (sample_audit
       (sample_result (Some "12") (Some "10")
          (Some (Details "list" None (Some (Details "text" (Some "Head") None None))
                   (Some [Details "text" (Some "item") None None])))))
  = inr
      (Element "div" ["lighthouse-audit"] [] None
         [Element "div" ["lighthouse-score"] [] None
            [Element "div"
               ["lighthouse-score__value"; "lighthouse-score__value--fail";
                "lighthouse-score__value--binary"]
               [] None [Text "92"];
             Element "details" ["lighthouse-score__header"] [] (Some true)
               [Element "summary" [] [] None
                  [Element "div" ["lighthouse-score__title"] [] None
                     [Text "desc:  12 (target: 10)"]];
                Element "div" ["lighthouse-score__description"] [] None
                  [Text "help"];
                Element "details" ["lighthouse-list"] [] None
                  [Element "summary" ["lighthouse-list__header"] [] None
                     [Text "Head"];
                   Element "div" ["lighthouse-list__items"] [] None
                     [Element "div" ["lighthouse-text"] [] None
                        [Text "item"]]]]]]).
Proof. reflexivity. Qed.

Lemma textContent_set_textContent text tag classes attrs o children :
  textContent (set_textContent text (Element tag classes attrs o children))
  = text.
Proof. destruct text; reflexivity. Qed.

(** A details node whose type is none of [text], [block], [list] raises
    the error that names the type. *)
Lemma _renderDetails_unknown_type details :
  details_type details <> "text" ->
  details_type details <> "block" ->
  details_type details <> "list" ->
  _renderDetails details
  = inl (Error ("Unknown type: " ++ details_type details)).
Proof.
  intros Ht Hb Hl. destruct details as [type text header items]; simpl in *.
  destruct (String.eqb_spec type "text"); [contradiction|].
  destruct (String.eqb_spec type "block"); [contradiction|].
  destruct (String.eqb_spec type "list"); [contradiction|].
  reflexivity.
Qed.

(** C3. [renderReport] never throws: it returns an element, which is the
    rendered report when [_renderReport] returns one, and otherwise an
    element of class [lighthouse-exception] whose text is the stack of the
    exception [_renderReport] raised -- such as the error raised for a
    details node of unknown type. *)
Theorem renderReport_never_throws host report :
  (exists element,
     renderReport host report = inr element /\
     match _renderReport host report with
     | inr rendered => element = rendered
     | inl e =>
         hasClass "lighthouse-exception" element = true /\
         textContent element = stack host e
     end) /\
  (forall details,
     details_type details <> "text" ->
     details_type details <> "block" ->
     details_type details <> "list" ->
     _renderDetails details
     = inl (Error ("Unknown type: " ++ details_type details))).
Proof.
  split; [|apply _renderDetails_unknown_type].
  unfold renderReport. simpl.
  destruct (_renderReport host report) as [e|rendered].
  - eexists. split; [reflexivity|].
    split; [reflexivity | apply textContent_set_textContent].
  - eexists. split; reflexivity.
Qed.

Lemma renderReport_never_throws_witness :
  _renderReport sample_host graph_report
  = inl (Error "Unknown type: graph") /\
  exists element,
    renderReport sample_host graph_report = inr element /\
    hasClass "lighthouse-exception" element = true /\
    textContent element = "Error: Unknown type: graph".
Proof.
  split; [reflexivity|].
  destruct (renderReport_never_throws sample_host graph_report)
    as [(element & Hr & He) _].
  exists element. split; [exact Hr|]. exact He.
Defined.

(** C9 (as amended). The title of an audit is the description of its
    result, followed by a colon, two spaces and [displayValue] exactly when
    [displayValue] is present and not empty, followed by [ (target: ],
    [optimalValue] and [)] exactly when [optimalValue] is present and not
    empty; and [_renderAudit] hands this title to [_renderScore]. *)
Theorem audit_title_composed host audit :
  let result := audit_result audit in
  audit_title audit
  = result_description result
    ++ title_suffix ":  " "" (result_displayValue result)
    ++ title_suffix " (target: " ")" (result_optimalValue result) /\
  _renderAudit host audit
  = (score <- _renderScore host (audit_score audit) (audit_title audit)
               (result_helpText result) (inl audit) ;;
     ret (appendFragment score
            (DOM.createElement "div" (Some "lighthouse-audit") []))).
Proof.
  split; [|reflexivity].
  unfold audit_title, title_suffix.
  destruct (result_displayValue (audit_result audit)) as [[|c dv]|],
           (result_optimalValue (audit_result audit)) as [[|c' ov]|];
    simpl; rewrite ?append_nil_r,
                   ?append_assoc;
    try reflexivity.
Qed.

(** C9, counterexample. With the display value [12] the title has two
    spaces after the colon, and a display value that is present but empty
    adds no suffix. *)
Lemma audit_title_two_spaces :
  audit_title (sample_audit (sample_result (Some "12") None None))
  = "desc:  12" /\
  "desc:  12" <> "desc: 12" /\
  audit_title (sample_audit (sample_result (Some "") None None)) = "desc" /\
  "desc" <> "desc: ".
Proof. repeat split; discriminate. Qed.

End RendererFacts.

(** ** replaceStrings: the occurrences of the search strings *)

Module ReplaceStringsOccurrences.

Import ReportGeneratorV2 Spec Samples ReplaceStringsFacts Occurrences.

Lemma append_inv_head a x y : a ++ x = a ++ y -> x = y.
Proof. induction a as [|c a IH]; simpl; intros E; [exact E|]. injection E as E. auto. Qed.

(** Two ways of cutting one string: the shorter head is a head of the
    longer. *)
Lemma append_eq_append x y a b :
  x ++ y = a ++ b -> String.length x <= String.length a ->
  exists z, a = x ++ z /\ y = z ++ b.
Proof.
  revert a. induction x as [|c x IH]; intros a E L; simpl in *.
  - exists a. auto.
  - destruct a as [|c' a]; simpl in *; [lia|].
    injection E as -> E. destruct (IH a E) as (z & -> & ->); [lia|].
    exists z. auto.
Qed.

Lemma split_no_occurrence sep s :
  sep <> "" -> ~ occurs_in sep s -> split sep s = [s].
Proof.
  intros Hsep. destruct sep as [|c0 sep']; [congruence|]. simpl split.
  set (sep := String c0 sep') in *.
  induction s as [|c s IH]; intros Hno; [reflexivity|].
  rewrite split_from_no_match.
  - rewrite IH; [reflexivity|].
    intros (x & y & ->). apply Hno. exists (String c x), y. reflexivity.
  - destruct (prefix sep (String c s)) eqn:P; [|reflexivity].
    apply prefix_app in P as [rest E]. contradiction Hno.
    exists "", rest. exact E.
Qed.

Lemma replaceStrings_no_occurrence pairs : forall source,
  Forall (fun r => search r <> "" /\ ~ occurs_in (search r) source) pairs ->
  replaceStrings source pairs = source.
Proof.
  induction pairs as [|r next IH]; intros source H; [reflexivity|].
  inversion H as [|? ? [Hne Hno] Hnext]; subst. simpl.
  rewrite split_no_occurrence by assumption. simpl. apply IH, Hnext.
Qed.

Lemma replaceStrings_identity pairs : forall source,
  Forall (fun r => replacement r = search r) pairs ->
  replaceStrings source pairs = source.
Proof.
  induction pairs as [|r next IH]; intros source H; [reflexivity|].
  inversion H as [|? ? Hr Hnext]; subst. simpl. rewrite Hr.
  rewrite <- (join_split (search r) source) at 2. f_equal.
  rewrite <- (map_id (split (search r) source)) at 2.
  apply map_ext. intros part. apply IH, Hnext.
Qed.

Lemma split_from_sep sep rest :
  sep <> "" -> split_from sep 0 (sep ++ rest) = "" :: split_from sep 0 rest.
Proof. destruct sep; [congruence|]. intros _. apply split_from_match. Qed.

Lemma cons_first_app c l1 l2 :
  l1 <> [] -> cons_first c (l1 ++ l2) = (cons_first c l1 ++ l2)%list.
Proof. destruct l1; [congruence|reflexivity]. Qed.

(** Splitting at an occurrence of the separator that no other occurrence
    overlaps. *)
Lemma split_from_app_sep sep a : forall b,
  sep <> "" ->
  (forall x y, a ++ sep ++ b = x ++ sep ++ y ->
     String.length x + String.length sep <= String.length a \/
     String.length a + String.length sep <= String.length x \/ x = a) ->
  split_from sep 0 (a ++ sep ++ b)
  = (split_from sep 0 a ++ split_from sep 0 b)%list.
Proof.
  induction a as [a IH] using string_length_ind. intros b Hsep Hocc.
  destruct a as [|c a].
  - simpl append. rewrite split_from_sep by assumption. reflexivity.
  - destruct (prefix sep (String c a ++ sep ++ b)) eqn:P.
    + apply prefix_app in P as [rest E].
      destruct (Hocc "" rest E) as [L|[L|L]]; simpl in L; try lia;
        [|discriminate L].
      destruct (append_eq_append sep rest (String c a) (sep ++ b))
        as (a' & Ea & Er); [symmetry; exact E | simpl; lia |].
      rewrite Ea, append_assoc.
      rewrite !split_from_sep by assumption. simpl. f_equal.
      assert (Ls : 0 < String.length sep) by (destruct sep; simpl; [congruence|lia]).
      apply IH; [rewrite Ea, length_append; simpl; lia | assumption |].
      intros x y Exy.
      destruct (Hocc (sep ++ x) y) as [L'|[L'|L']].
      * rewrite Ea, !append_assoc, Exy. reflexivity.
      * left. rewrite Ea, !length_append in L'. lia.
      * right. left. rewrite Ea, !length_append in L'. lia.
      * right. right. rewrite Ea in L'. apply append_inv_head in L'. exact L'.
    + assert (Pa : prefix sep (String c a) = false).
      { destruct (prefix sep (String c a)) eqn:Pa; [|reflexivity].
        apply prefix_app in Pa as [rest E].
        assert (prefix sep (String c a ++ sep ++ b) = true) as P'.
        { apply prefix_app. exists (rest ++ sep ++ b).
          rewrite E, append_assoc. reflexivity. }
        congruence. }
      change (String c a ++ sep ++ b) with (String c (a ++ sep ++ b)) in *.
      rewrite !split_from_no_match by assumption.
      rewrite IH; [| simpl; lia | assumption |].
      * apply cons_first_app, split_from_not_nil.
      * intros x y Exy. destruct (Hocc (String c x) y) as [L|[L|L]].
        -- simpl. rewrite Exy. reflexivity.
        -- left. simpl in L. lia.
        -- right. left. simpl in L. lia.
        -- right. right. injection L as L. exact L.
Qed.

(** Splitting a string whose middle no occurrence of the separator
    touches. *)
Lemma split_from_prefix_free sep m : forall b b1 lb,
  (forall x y, m ++ b = x ++ sep ++ y -> String.length m <= String.length x) ->
  split_from sep 0 b = b1 :: lb ->
  split_from sep 0 (m ++ b) = (m ++ b1) :: lb.
Proof.
  induction m as [|c m IH]; intros b b1 lb Hocc Hb; [exact Hb|].
  simpl append. rewrite split_from_no_match.
  - rewrite (IH b b1 lb); [reflexivity| |exact Hb].
    intros x y E. specialize (Hocc (String c x) y). simpl in Hocc.
    rewrite E in Hocc. specialize (Hocc eq_refl). lia.
  - destruct (prefix sep (String c (m ++ b))) eqn:P; [|reflexivity].
    apply prefix_app in P as [rest E].
    specialize (Hocc "" rest E). simpl in Hocc. lia.
Qed.

Lemma split_from_app_mid sep a : forall m b,
  sep <> "" ->
  (forall x y, a ++ m ++ b = x ++ sep ++ y ->
     String.length x + String.length sep <= String.length a \/
     String.length a + String.length m <= String.length x) ->
  exists la am b1 lb,
    split_from sep 0 a = (la ++ [am])%list /\
    split_from sep 0 b = b1 :: lb /\
    split_from sep 0 (a ++ m ++ b)
    = (la ++ [(am ++ m ++ b1)%string] ++ lb)%list.
Proof.
  induction a as [a IH] using string_length_ind. intros m b Hsep Hocc.
  assert (Ls : 0 < String.length sep)
    by (destruct sep; simpl; [congruence|lia]).
  destruct (split_from sep 0 b) as [|b1 lb] eqn:Eb;
    [contradiction (split_from_not_nil sep 0 b)|].
  destruct a as [|c a].
  - exists [], "", b1, lb. repeat split. simpl.
    apply split_from_prefix_free; [|exact Eb].
    intros x y E. destruct (Hocc x y E) as [L|L]; simpl in L; lia.
  - destruct (prefix sep (String c a ++ m ++ b)) eqn:P.
    + apply prefix_app in P as [rest E].
      destruct (Hocc "" rest E) as [L|L]; simpl in L; [|lia].
      destruct (append_eq_append sep rest (String c a) (m ++ b))
        as (a' & Ea & Er); [symmetry; exact E | simpl; lia |].
      destruct (IH a') with (m := m) (b := b) as (la & am & b1' & lb' & H1 & H2 & H3).
      * rewrite Ea, length_append. lia.
      * assumption.
      * intros x y Exy. destruct (Hocc (sep ++ x) y) as [L'|L'].
        -- rewrite Ea, !append_assoc, Exy. reflexivity.
        -- left. rewrite Ea, !length_append in L'. lia.
        -- right. rewrite Ea, !length_append in L'. lia.
      * rewrite Eb in H2. injection H2 as <- <-.
        exists ("" :: la), am, b1, lb. rewrite Ea, append_assoc.
        rewrite !split_from_sep by assumption. rewrite H1, H3.
        repeat split.
    + assert (Pa : prefix sep (String c a) = false).
      { destruct (prefix sep (String c a)) eqn:Pa; [|reflexivity].
        apply prefix_app in Pa as [rest E].
        assert (prefix sep (String c a ++ m ++ b) = true) as P'.
        { apply prefix_app. exists (rest ++ m ++ b).
          rewrite E, append_assoc. reflexivity. }
        congruence. }
      change (String c a ++ m ++ b) with (String c (a ++ m ++ b)) in *.
      destruct (IH a) with (m := m) (b := b) as (la & am & b1' & lb' & H1 & H2 & H3).
      * simpl. lia.
      * assumption.
      * intros x y Exy. destruct (Hocc (String c x) y) as [L|L].
        -- simpl. rewrite Exy. reflexivity.
        -- left. simpl in L. lia.
        -- right. simpl in L. lia.
      * rewrite Eb in H2. injection H2 as <- <-.
        rewrite !split_from_no_match by assumption. rewrite H1, H3.
        destruct la as [|l0 la].
        -- exists [], (String c am), b1, lb. repeat split.
        -- exists (String c l0 :: la), am, b1, lb. repeat split.
Qed.

Lemma join_app sep l1 l2 :
  l1 <> [] -> l2 <> [] ->
  join sep (l1 ++ l2)%list = join sep l1 ++ sep ++ join sep l2.
Proof.
  intros H1 H2. induction l1 as [|x l1 IH]; [congruence|].
  destruct l1 as [|x' l1].
  - simpl app. apply join_cons. assumption.
  - change ((x :: x' :: l1) ++ l2)%list with (x :: (x' :: l1) ++ l2)%list.
    rewrite !join_cons by discriminate. rewrite IH by discriminate.
    rewrite !append_assoc. reflexivity.
Qed.

Lemma join_app_mid sep la A M B lb :
  join sep (la ++ [(A ++ M ++ B)%string] ++ lb)%list
  = join sep (la ++ [A])%list ++ M ++ join sep (B :: lb).
Proof.
  assert (Hone : join sep ([(A ++ M ++ B)%string] ++ lb)%list
                 = A ++ M ++ join sep (B :: lb)).
  { destruct lb as [|l lb]; simpl.
    - reflexivity.
    - rewrite !append_assoc. reflexivity. }
  destruct la as [|l0 la].
  - change ([] ++ [(A ++ M ++ B)%string] ++ lb)%list
      with ([(A ++ M ++ B)%string] ++ lb)%list.
    rewrite Hone. reflexivity.
  - rewrite (join_app sep (l0 :: la) ([(A ++ M ++ B)%string] ++ lb))
      by discriminate.
    rewrite (join_app sep (l0 :: la) [A]) by discriminate.
    rewrite Hone. simpl (join sep [A]). rewrite !append_assoc. reflexivity.
Qed.

Lemma join_last sep la am : exists a0, join sep (la ++ [am])%list = a0 ++ am.
Proof.
  destruct la as [|l0 la].
  - exists "". reflexivity.
  - exists (join sep (l0 :: la) ++ sep).
    rewrite join_app by discriminate. rewrite append_assoc. reflexivity.
Qed.

Lemma split_not_nil sep s : sep <> "" -> split sep s <> [].
Proof. destruct sep; [congruence|]. intros _. apply split_from_not_nil. Qed.

Lemma split_nonempty_sep sep s : sep <> "" -> split sep s = split_from sep 0 s.
Proof. destruct sep; [congruence|reflexivity]. Qed.

Lemma replaceStrings_split_at pairs : forall k r a b,
  Forall (fun r' => search r' <> "") pairs ->
  nth_error pairs k = Some r ->
  (forall j r' x y,
     nth_error pairs j = Some r' ->
     a ++ search r ++ b = x ++ search r' ++ y ->
     String.length x + String.length (search r') <= String.length a \/
     String.length a + String.length (search r) <= String.length x \/
     (j = k /\ x = a)) ->
  replaceStrings (a ++ search r ++ b) pairs
  = replaceStrings a pairs ++ replacement r ++ replaceStrings b pairs.
Proof.
  induction pairs as [|r1 next IH]; intros k r a b Hne Hk Hocc.
  - destruct k; discriminate Hk.
  - inversion Hne as [|? ? Hne1 Hnext]; subst.
    cbn [replaceStrings]. rewrite !split_nonempty_sep by assumption.
    set (f := fun part => replaceStrings part next).
    destruct k as [|k]; simpl in Hk.
    + injection Hk as ->.
      rewrite split_from_app_sep; [|assumption|].
      * rewrite map_app, join_app; [reflexivity| |];
          intros E; apply map_eq_nil in E;
          apply (split_from_not_nil _ _ _ E).
      * intros x y E. destruct (Hocc 0 r x y eq_refl E) as [L|[L|[_ L]]]; auto.
    + destruct (split_from_app_mid (search r1) a (search r) b Hne1)
        as (la & am & b1 & lb & Ha & Hb & Hab).
      * intros x y E. destruct (Hocc 0 r1 x y eq_refl E) as [L|[L|[L _]]];
          [auto | auto | discriminate L].
      * rewrite Ha, Hb, Hab, !map_app. cbn [map].
        pose proof (join_split_from (search r1) a Hne1) as Ja.
        pose proof (join_split_from (search r1) b Hne1) as Jb.
        rewrite Ha in Ja. rewrite Hb in Jb.
        destruct (join_last (search r1) la am) as [a0 Ea].
        destruct (join_head (search r1) b1 lb) as [b0 Eb].
        rewrite Ja in Ea. rewrite Jb in Eb.
        assert (Hmid : f (am ++ search r ++ b1)
                       = f am ++ replacement r ++ f b1).
        { unfold f. apply (IH k); [assumption | assumption |].
          intros j r' x y Hj E.
          destruct (Hocc (S j) r' (a0 ++ x) (y ++ b0) Hj) as [L|[L|[Lj L]]].
          - assert (E' : a0 ++ (am ++ search r ++ b1) ++ b0
                         = a0 ++ (x ++ search r' ++ y) ++ b0)
              by (rewrite E; reflexivity).
            rewrite Ea, Eb. rewrite !append_assoc in *. exact E'.
          - left. rewrite Ea, !length_append in L. lia.
          - right. left. rewrite Ea, !length_append in L. lia.
          - right. right. split; [lia|].
            rewrite Ea in L. apply append_inv_head in L. exact L. }
        rewrite Hmid. apply join_app_mid.
Qed.

Lemma nth_map_search pairs k r :
  nth_error pairs k = Some r -> nth k (map search pairs) "" = search r.
Proof.
  revert k. induction pairs as [|r0 pairs IH]; intros [|k] H; simpl in *;
    try discriminate H.
  - injection H as ->. reflexivity.
  - apply IH, H.
Qed.

Lemma nth_map_replacement pairs k r :
  nth_error pairs k = Some r ->
  nth k (map replacement pairs) "" = replacement r.
Proof.
  revert k. induction pairs as [|r0 pairs IH]; intros [|k] H; simpl in *;
    try discriminate H.
  - injection H as ->. reflexivity.
  - apply IH, H.
Qed.

Lemma length_pos_nonempty s : s <> "" -> 0 < String.length s.
Proof. destruct s; simpl; [congruence|lia]. Qed.

Lemma replaceStrings_weave_aux pairs segs : forall t0,
  Forall (fun r => search r <> "") pairs ->
  Forall (fun seg => fst seg < List.length pairs) segs ->
  (forall j r x y,
     nth_error pairs j = Some r ->
     weave (map search pairs) t0 segs = x ++ search r ++ y ->
     listed (map search pairs) t0 segs j x) ->
  replaceStrings (weave (map search pairs) t0 segs) pairs
  = weave (map replacement pairs) t0 segs.
Proof.
  induction segs as [|[k t] rest IH]; intros t0 Hne Hk Hocc.
  - simpl. apply replaceStrings_no_occurrence.
    apply Forall_forall. intros r Hr. split.
    + rewrite Forall_forall in Hne. apply Hne, Hr.
    + intros (x & y & E). apply In_nth_error in Hr as [j Hj].
      exact (Hocc j r x y Hj E).
  - inversion Hk as [|? ? Hk0 Hk']; subst. simpl in Hk0.
    destruct (nth_error pairs k) as [r|] eqn:Er;
      [|apply nth_error_None in Er; lia].
    assert (Lr : 0 < String.length (search r)).
    { apply length_pos_nonempty. rewrite Forall_forall in Hne.
      apply Hne. apply nth_error_In with (1 := Er). }
    cbn [weave] in *.
    rewrite (nth_map_search _ _ _ Er) in *.
    rewrite (nth_map_replacement _ _ _ Er).
    set (B := weave (map search pairs) t rest) in *.
    rewrite (replaceStrings_split_at pairs k r t0 B Hne Er).
    + f_equal; [|f_equal].
      * apply replaceStrings_no_occurrence.
        apply Forall_forall. intros r' Hr'. split.
        -- rewrite Forall_forall in Hne. apply Hne, Hr'.
        -- intros (x & y & E). apply In_nth_error in Hr' as [j Hj].
           destruct (Hocc j r' x (y ++ search r ++ B) Hj) as [[_ Ex]|(x' & Ex & _)].
           ++ rewrite E, !append_assoc. reflexivity.
           ++ apply (f_equal String.length) in E. subst x.
              rewrite !length_append in E.
              assert (0 < String.length (search r')).
              { apply length_pos_nonempty. rewrite Forall_forall in Hne.
                apply Hne. apply nth_error_In with (1 := Hj). }
              lia.
           ++ rewrite ?(nth_map_search _ _ _ Er) in Ex.
              apply (f_equal String.length) in E.
              apply (f_equal String.length) in Ex.
              rewrite !length_append in E, Ex. lia.
      * apply IH; [assumption | assumption |].
        intros j r' x y Hj E.
        destruct (Hocc j r' (t0 ++ search r ++ x) y Hj) as [[_ Ex]|(x' & Ex & Hl)].
        -- unfold B. rewrite E, !append_assoc. reflexivity.
        -- apply (f_equal String.length) in Ex.
           rewrite !length_append in Ex. lia.
        -- rewrite ?(nth_map_search _ _ _ Er) in Ex.
           apply append_inv_head in Ex. apply append_inv_head in Ex.
           subst x'. exact Hl.
    + intros j r' x y Hj E.
      destruct (Hocc j r' x y Hj E) as [[Ej Ex]|(x' & Ex & _)].
      * right. right. auto.
      * right. left. rewrite ?(nth_map_search _ _ _ Er) in Ex.
        subst x. rewrite !length_append. lia.
Qed.

End ReplaceStringsOccurrences.

(** ** generateReportHtml *)

Module ReportHtmlFacts.

Import ReportGeneratorV2 Spec Samples ReplaceStringsFacts.
Import ReplaceStringsOccurrences ReportHtml.

Example escaped_lt_length : String.length escaped_lt = 6.
Proof. reflexivity. Qed.

Lemma occurs_in_app_char c a b :
  occurs_in (String c "") (a ++ b) ->
  occurs_in (String c "") a \/ occurs_in (String c "") b.
Proof.
  induction a as [|c' a IH]; simpl; intros H; [right; exact H|].
  apply occurs_in_cons in H as [P|H].
  - left. simpl in P. destruct (ascii_dec c c') as [->|]; [|discriminate P].
    exists "", a. reflexivity.
  - destruct (IH H) as [(x & y & ->)|Hb]; [left|right; exact Hb].
    exists (String c' x), y. reflexivity.
Qed.

Lemma sanitizeJson_step c s :
  sanitizeJson (String c s)
  = if ascii_dec "<"%char c then escaped_lt ++ sanitizeJson s
    else String c (sanitizeJson s).
Proof.
  unfold sanitizeJson, replace_all. cbn [replace_all_from prefix].
  destruct (ascii_dec "<"%char c); [|reflexivity].
  destruct s; reflexivity.
Qed.

Lemma escaped_lt_no_lt : ~ occurs_in "<" escaped_lt.
Proof.
  intros (x & y & H). unfold escaped_lt in H.
  destruct x as [|? [|? [|? [|? [|? [|? [|? x]]]]]]]; simpl in H;
    try discriminate H.
Qed.

Lemma sanitizeJson_free json : ~ occurs_in "<" (sanitizeJson json).
Proof.
  induction json as [|c s IH]; intros H.
  - apply occurs_in_empty in H. discriminate H.
  - rewrite sanitizeJson_step in H. destruct (ascii_dec "<"%char c) as [E|N].
    + apply occurs_in_app_char in H as [H|H];
        [exact (escaped_lt_no_lt H) | exact (IH H)].
    + apply occurs_in_cons in H as [P|H]; [|exact (IH H)].
      apply prefix_app in P as [r Er]. simpl in Er. injection Er as Ec _.
      congruence.
Qed.

Lemma sanitizeJson_unchanged json :
  ~ occurs_in "<" json -> sanitizeJson json = json.
Proof.
  induction json as [|c s IH]; intros H; [reflexivity|].
  rewrite sanitizeJson_step. destruct (ascii_dec "<"%char c) as [<-|N].
  - contradiction H. exists "", s. reflexivity.
  - rewrite IH; [reflexivity|].
    intros (x & y & ->). apply H. exists (String c x), y. reflexivity.
Qed.

(** sanitizeJavascript *)
Lemma sanitizeJavascript_match rest :
  sanitizeJavascript ("</" ++ rest)
  = escaped_lt ++ "/" ++ sanitizeJavascript rest.
Proof.
  unfold sanitizeJavascript, replace_all. simpl append.
  cbn [replace_all_from prefix String.length Nat.sub].
  destruct (ascii_dec "<"%char "<"%char); [|congruence].
  destruct (ascii_dec "/"%char "/"%char); [|congruence].
  destruct rest; reflexivity.
Qed.

Lemma sanitizeJavascript_no_match c s :
  prefix "</" (String c s) = false ->
  sanitizeJavascript (String c s) = String c (sanitizeJavascript s).
Proof.
  intros P. unfold sanitizeJavascript, replace_all. cbn [replace_all_from].
  rewrite P. reflexivity.
Qed.

Lemma sanitizeJavascript_spec (s : string) :
  ~ occurs_in "</" (sanitizeJavascript s) /\
  (forall t, sanitizeJavascript s = String "/" t -> exists t', s = String "/" t').
Proof.
  induction s as [s IH] using string_length_ind.
  destruct s as [|c s]; [split|].
  - intros H. apply occurs_in_empty in H. discriminate H.
  - intros t E. discriminate E.
  - destruct (prefix "</" (String c s)) eqn:P.
    + apply prefix_app in P as [rest E]. rewrite E.
      rewrite sanitizeJavascript_match.
      destruct (IH rest) as [IH1 IH2].
      { rewrite E. simpl. lia. }
      split.
      * unfold escaped_lt. simpl append. intros H.
        repeat (apply occurs_in_cons in H as [Hp|H];
                [simpl in Hp; discriminate Hp|]).
        exact (IH1 H).
      * unfold escaped_lt. simpl append. intros t Et. discriminate Et.
    + rewrite sanitizeJavascript_no_match by assumption.
      destruct (IH s) as [IH1 IH2]; [simpl; lia|].
      split.
      * intros H. apply occurs_in_cons in H as [Hp|H]; [|exact (IH1 H)].
        apply prefix_app in Hp as [r Er]. simpl in Er. injection Er as -> Er.
        destruct (IH2 _ Er) as [t' ->].
        assert (P' : prefix "</" (String "<" (String "/" t')) = true)
          by (apply prefix_app; exists t'; reflexivity).
        congruence.
      * intros t Et. injection Et as -> _. eexists. reflexivity.
Qed.

Lemma sanitizeJavascript_free s :
  ~ occurs_in "</" (sanitizeJavascript s).
Proof. apply sanitizeJavascript_spec. Qed.

Lemma append_eq_append_sym x y a b :
  a ++ b = x ++ y -> String.length x <= String.length a ->
  exists z, a = x ++ z /\ y = z ++ b.
Proof.
  revert a. induction x as [|c x IH]; intros a E L; simpl in *.
  - exists a. auto.
  - destruct a as [|c' a]; simpl in *; [lia|].
    injection E as -> E. destruct (IH a E) as (z & -> & ->); [lia|].
    exists z. auto.
Qed.


Lemma index_of_occurs pat s j : index_of pat s = Some j -> occurs_in pat s.
Proof.
  revert j. induction s as [|c s IH]; intros j; cbn [index_of].
  - destruct (prefix pat "") eqn:P; [|discriminate].
    intros _. apply prefix_app in P as [rest E]. exists "", rest. exact E.
  - destruct (prefix pat (String c s)) eqn:P.
    + intros _. apply prefix_app in P as [rest E]. exists "", rest. exact E.
    + destruct (index_of pat s) as [i|]; [|discriminate].
      intros _. destruct (IH i eq_refl) as (x & y & ->).
      exists (String c x), y. reflexivity.
Qed.

Lemma occurs_in_drop pat n s : occurs_in pat (drop n s) -> occurs_in pat s.
Proof.
  revert s. induction n as [|n IH]; intros s; [destruct s; auto|].
  destruct s as [|c s]; [auto|]. simpl. intros H.
  destruct (IH s H) as (x & y & ->). exists (String c x), y. reflexivity.
Qed.

Lemma remove_scripts_keep c s :
  (prefix "<script>" (String c s) = false \/
   index_of "</script>" (drop 8 (String c s)) = None) ->
  remove_scripts (String c s) = String c (remove_scripts s).
Proof.
  unfold remove_scripts. cbn [remove_scripts_from]. intros [P|I].
  - rewrite P. reflexivity.
  - rewrite I. destruct (prefix "<script>" (String c s)); reflexivity.
Qed.

Lemma remove_scripts_no_closing s :
  ~ occurs_in "</script>" s -> remove_scripts s = s.
Proof.
  induction s as [|c s IH]; intros H; [reflexivity|].
  rewrite remove_scripts_keep.
  - rewrite IH; [reflexivity|].
    intros (x & y & ->). apply H. exists (String c x), y. reflexivity.
  - right. destruct (index_of "</script>" (drop 8 (String c s))) as [j|] eqn:I;
      [|reflexivity].
    contradiction H. apply occurs_in_drop with (n := 8).
    apply index_of_occurs with (j := j). exact I.
Qed.

Lemma remove_scripts_no_opening s :
  ~ occurs_in "<script>" s -> remove_scripts s = s.
Proof.
  induction s as [|c s IH]; intros H; [reflexivity|].
  rewrite remove_scripts_keep.
  - rewrite IH; [reflexivity|].
    intros (x & y & ->). apply H. exists (String c x), y. reflexivity.
  - left. destruct (prefix "<script>" (String c s)) eqn:P; [|reflexivity].
    apply prefix_app in P as [rest E]. contradiction H. exists "", rest. exact E.
Qed.

Lemma remove_scripts_from_skip pre rest :
  remove_scripts_from (String.length pre) (pre ++ rest) = remove_scripts rest.
Proof. induction pre as [|c pre IH]; simpl; [reflexivity | exact IH]. Qed.

(** The first occurrence of [pat] in [body ++ pat ++ b] when [pat] occurs
    in [body ++ pat] at its end only. *)
Lemma index_of_first pat body b :
  (forall x y, body ++ pat = x ++ pat ++ y -> y = "") ->
  index_of pat (body ++ pat ++ b) = Some (String.length body).
Proof.
  induction body as [|c body IH]; intros H.
  - simpl append. assert (P : prefix pat (pat ++ b) = true)
      by (apply prefix_app; eauto).
    destruct (pat ++ b); cbn [index_of]; rewrite P; reflexivity.
  - simpl append. cbn [index_of].
    destruct (prefix pat (String c (body ++ pat ++ b))) eqn:P.
    + apply prefix_app in P as [rest E].
      destruct (append_eq_append_sym pat rest (String c body ++ pat) b)
        as (z & Ez & _).
      * rewrite append_assoc. simpl. rewrite E. reflexivity.
      * rewrite length_append. simpl. lia.
      * assert (z = "") by (apply (H "" z); exact Ez). subst z.
        rewrite append_nil_r in Ez. apply (f_equal String.length) in Ez.
        rewrite length_append in Ez. simpl in Ez. lia.
    + rewrite IH; [reflexivity|].
      intros x y E. apply (H (String c x) y). simpl. rewrite E. reflexivity.
Qed.

Lemma remove_scripts_open c s j :
  prefix "<script>" (String c s) = true ->
  index_of "</script>" (drop 8 (String c s)) = Some j ->
  remove_scripts (String c s) = remove_scripts_from (8 + j + 9 - 1) s.
Proof.
  intros P I. unfold remove_scripts. cbn [remove_scripts_from].
  rewrite P, I. reflexivity.
Qed.

Lemma remove_scripts_element body b :
  (forall x y, body ++ "</script>" = x ++ "</script>" ++ y -> y = "") ->
  remove_scripts ("<script>" ++ body ++ "</script>" ++ b) = remove_scripts b.
Proof.
  intros Hb.
  remember ("script>" ++ body ++ "</script>" ++ b) as s eqn:Es.
  change ("<script>" ++ body ++ "</script>" ++ b)
    with (String "<" ("script>" ++ body ++ "</script>" ++ b)).
  rewrite <- Es.
  rewrite (remove_scripts_open "<" s (String.length body)).
  - rewrite Es.
    replace (8 + String.length body + 9 - 1)
      with (String.length ("script>" ++ body ++ "</script>"))
      by (rewrite !length_append; simpl; lia).
    replace ("script>" ++ body ++ "</script>" ++ b)
      with (("script>" ++ body ++ "</script>") ++ b)
      by (rewrite !append_assoc; reflexivity).
    apply remove_scripts_from_skip.
  - apply prefix_app. exists (body ++ "</script>" ++ b). rewrite Es. reflexivity.
  - rewrite Es. change (drop 8 _) with (body ++ "</script>" ++ b).
    apply index_of_first, Hb.
Qed.

Lemma remove_scripts_cut a body b :
  (forall x y, a ++ "<script>" = x ++ "<script>" ++ y -> y = "") ->
  (forall x y, body ++ "</script>" = x ++ "</script>" ++ y -> y = "") ->
  remove_scripts (a ++ "<script>" ++ body ++ "</script>" ++ b)
  = a ++ remove_scripts b.
Proof.
  intros Ha Hb. induction a as [|c a IH].
  - apply (remove_scripts_element body b Hb).
  - change (String c a ++ "<script>" ++ body ++ "</script>" ++ b)
      with (String c (a ++ "<script>" ++ body ++ "</script>" ++ b)).
    rewrite remove_scripts_keep.
    + rewrite IH; [reflexivity|].
      intros x y E. apply (Ha (String c x) y). simpl. rewrite E. reflexivity.
    + left.
      destruct (prefix "<script>"
                  (String c (a ++ "<script>" ++ body ++ "</script>" ++ b)))
        eqn:P; [|reflexivity].
      apply prefix_app in P as [rest E].
      destruct (append_eq_append_sym "<script>" rest (String c a ++ "<script>")
                  (body ++ "</script>" ++ b)) as (z & Ez & _).
      * rewrite append_assoc. exact E.
      * rewrite length_append. simpl. lia.
      * assert (z = "") by (apply (Ha "" z); exact Ez). subst z.
        apply (f_equal String.length) in Ez.
        rewrite length_append in Ez. simpl in Ez. lia.
Qed.

End ReportHtmlFacts.

(** ** Properties of replaceStrings and generateReportHtml *)

Module ReportHtmlProperties.

Import ReportGeneratorV2 Spec Samples ReplaceStringsFacts Occurrences.
Import ReplaceStringsOccurrences ReportHtml ReportHtmlFacts MoreSamples.

(** Runs through the ways of writing a given string as [x ++ _], closing
    those that cannot be. *)
Ltac enumerate_prefixes x E :=
  repeat (destruct x as [|? x]; simpl in E;
          [ try discriminate E
          | first [discriminate E | injection E as <- E] ]).

(** X1. When none of the search strings, none of them empty, occurs in the
    source, [replaceStrings] returns the source unchanged. *)
Theorem replaceStrings_unchanged source pairs :
  Forall (fun r => search r <> "" /\ ~ occurs_in (search r) source) pairs ->
  replaceStrings source pairs = source.
Proof. apply replaceStrings_no_occurrence. Qed.

Lemma replaceStrings_unchanged_witness :
  replaceStrings "report" overlapping_replacements = "report".
Proof.
  apply replaceStrings_unchanged.
  repeat constructor; simpl; try discriminate;
    intros (x & y & E); enumerate_prefixes x E.
Defined.

(** X2. Replacing every search string by itself gives the source back. *)
Theorem replaceStrings_same_text source pairs :
  Forall (fun r => replacement r = search r) pairs ->
  replaceStrings source pairs = source.
Proof. apply replaceStrings_identity. Qed.

Lemma replaceStrings_same_text_witness :
  replaceStrings "banana" same_text_replacements = "banana".
Proof. apply replaceStrings_same_text. repeat constructor. Defined.

(** X3. At an occurrence of the search string of a pair that no occurrence of
    any search string overlaps, [replaceStrings] puts the replacement of
    that pair between what it makes of the text before and of the text
    after. *)
Theorem replaceStrings_at_occurrence pairs k r a b :
  Forall (fun r' => search r' <> "") pairs ->
  nth_error pairs k = Some r ->
  (forall j r' x y,
     nth_error pairs j = Some r' ->
     a ++ search r ++ b = x ++ search r' ++ y ->
     String.length x + String.length (search r') <= String.length a \/
     String.length a + String.length (search r) <= String.length x \/
     (j = k /\ x = a)) ->
  replaceStrings (a ++ search r ++ b) pairs
  = replaceStrings a pairs ++ replacement r ++ replaceStrings b pairs.
Proof. apply replaceStrings_split_at. Qed.

Lemma replaceStrings_at_occurrence_witness :
  replaceStrings "cba" swapping_replacements
  = replaceStrings "c" swapping_replacements ++ "a"
    ++ replaceStrings "a" swapping_replacements.
Proof.
  apply (replaceStrings_at_occurrence swapping_replacements 1
           {| search := "b"; replacement := "a" |} "c" "a").
  - repeat constructor; discriminate.
  - reflexivity.
  - intros j r' x y Hj E. destruct j as [|[|j]]; simpl in Hj.
    + injection Hj as Hr. subst r'. simpl in E. enumerate_prefixes x E.
      right. left. simpl. lia.
    + injection Hj as Hr. subst r'. simpl in E. enumerate_prefixes x E.
      right. right. auto.
    + destruct j; discriminate Hj.
Defined.

(** X4. When the occurrences of the search strings in the source are exactly
    those of a list, one after the other, the output is the source with
    the replacement of its pair at each of them, whatever the replacements
    contain. *)
Theorem replaceStrings_weave pairs t0 segs :
  Forall (fun r => search r <> "") pairs ->
  Forall (fun seg => fst seg < List.length pairs) segs ->
  (forall j r x y,
     nth_error pairs j = Some r ->
     weave (map search pairs) t0 segs = x ++ search r ++ y ->
     listed (map search pairs) t0 segs j x) ->
  replaceStrings (weave (map search pairs) t0 segs) pairs
  = weave (map replacement pairs) t0 segs.
Proof. apply replaceStrings_weave_aux. Qed.

Lemma replaceStrings_weave_witness :
  replaceStrings "<%C|%J>" short_replacements = "<x|{%C}>".
Proof.
  apply (replaceStrings_weave short_replacements "<" [(1, "|"); (0, ">")]).
  - repeat constructor; discriminate.
  - repeat constructor.
  - intros j r x y Hj E. destruct j as [|[|j]]; simpl in Hj.
    + injection Hj as Hr. subst r. simpl in E. enumerate_prefixes x E.
      simpl. right. exists "|". split; [reflexivity|]. left. auto.
    + injection Hj as Hr. subst r. simpl in E. enumerate_prefixes x E.
      simpl. left. auto.
    + destruct j; discriminate Hj.
Defined.

(** X5. The JSON text put in the page has no [<] in it, and a text without
    [<] is put in the page as it is. *)
Theorem sanitizeJson_no_lt json :
  ~ occurs_in "<" (sanitizeJson json) /\
  (~ occurs_in "<" json -> sanitizeJson json = json).
Proof. split; [apply sanitizeJson_free | apply sanitizeJson_unchanged]. Qed.

Lemma sanitizeJavascript_unchanged javascript :
  ~ occurs_in "</" javascript -> sanitizeJavascript javascript = javascript.
Proof.
  induction javascript as [|c s IH]; intros H; [reflexivity|].
  rewrite sanitizeJavascript_no_match.
  - rewrite IH; [reflexivity|].
    intros (x & y & ->). apply H. exists (String c x), y. reflexivity.
  - destruct (prefix "</" (String c s)) eqn:P; [|reflexivity].
    apply prefix_app in P as [rest E]. contradiction H.
    exists "", rest. exact E.
Qed.

(** X6. The script put in the page has no [</] in it, and a script without
    [</] is put in the page as it is. *)
Theorem sanitizeJavascript_no_closing_tag javascript :
  ~ occurs_in "</" (sanitizeJavascript javascript) /\
  (~ occurs_in "</" javascript ->
   sanitizeJavascript javascript = javascript).
Proof.
  split; [apply sanitizeJavascript_free | apply sanitizeJavascript_unchanged].
Qed.

(** X7. Templates that lack an opening script tag, or a closing one, are left
    as they are: an opening tag that is never closed is not removed. *)
Theorem remove_scripts_unchanged s :
  ~ occurs_in "<script>" s \/ ~ occurs_in "</script>" s ->
  remove_scripts s = s.
Proof.
  intros [H|H];
    [apply remove_scripts_no_opening | apply remove_scripts_no_closing];
    exact H.
Qed.

Lemma remove_scripts_unchanged_witness :
  remove_scripts "a<script>b" = "a<script>b".
Proof.
  apply remove_scripts_unchanged. right.
  intros (x & y & E). enumerate_prefixes x E.
Defined.

(** X8. The first script element of the templates -- from the first opening
    tag to the first closing tag after it -- is removed with all it holds,
    the text before it is kept, and the removal goes on after it. *)
Theorem remove_scripts_first_element a body b :
  (forall x y, a ++ "<script>" = x ++ "<script>" ++ y -> y = "") ->
  (forall x y, body ++ "</script>" = x ++ "</script>" ++ y -> y = "") ->
  remove_scripts (a ++ "<script>" ++ body ++ "</script>" ++ b)
  = a ++ remove_scripts b.
Proof. apply remove_scripts_cut. Qed.

Lemma remove_scripts_first_element_witness :
  remove_scripts "a<script>b</script>c<script>" = "a" ++ remove_scripts "c<script>".
Proof.
  apply (remove_scripts_first_element "a" "b" "c<script>").
  - intros x y E. simpl in E. enumerate_prefixes x E.
    destruct y; [reflexivity | discriminate E].
  - intros x y E. simpl in E. enumerate_prefixes x E.
    destruct y; [reflexivity | discriminate E].
Defined.

(** X9. When the placeholders occur in the report template exactly at the
    places of a list, in whatever order, the page is the template with the
    sanitized JSON, the sanitized script, the style sheet and the templates
    without scripts at those places; placeholders inside these texts are
    left alone. *)
Theorem generateReportHtml_page assets reportAsJson t0 segs :
  REPORT_TEMPLATE assets = weave placeholders t0 segs ->
  Forall (fun seg => fst seg < 4) segs ->
  (forall j p x y,
     nth_error placeholders j = Some p ->
     REPORT_TEMPLATE assets = x ++ p ++ y ->
     listed placeholders t0 segs j x) ->
  generateReportHtml assets reportAsJson
  = weave (page_contents assets reportAsJson) t0 segs.
Proof.
  intros Et Hk Hocc. unfold generateReportHtml. rewrite Et.
  apply (replaceStrings_weave_aux (html_replacements assets reportAsJson)
           segs t0).
  - repeat constructor; discriminate.
  - exact Hk.
  - intros j r x y Hj E. apply (Hocc j (search r) x y).
    + destruct j as [|[|[|[|j]]]]; simpl in Hj;
        try (injection Hj as <-; reflexivity).
      destruct j; discriminate Hj.
    + rewrite Et. exact E.
Qed.

Lemma generateReportHtml_page_witness :
  generateReportHtml sample_assets empty_tree
  = "<style>" ++ "b{}" ++ "</style><script>r="
    ++ sanitizeJson sample_json ++ "</script>".
Proof.
  apply (generateReportHtml_page sample_assets empty_tree "<style>"
           [(2, "</style><script>r="); (0, "</script>")]).
  - reflexivity.
  - repeat constructor.
  - intros j p x y Hj E. destruct j as [|[|[|[|j]]]]; simpl in Hj;
      try (injection Hj as Hp; subst p; simpl in E; enumerate_prefixes x E).
    + simpl. right. exists "</style><script>r=". split; [reflexivity|].
      left. auto.
    + simpl. left. auto.
    + destruct j; discriminate Hj.
Defined.

End ReportHtmlProperties.

(** ** Further properties of generateReportJson *)

Module GenerateReportProperties.

Import ReportGeneratorV2 Spec Samples MoreSamples GenerateReportFacts.

Lemma array_map_ext_in {A B} (f g : A -> M B) (l : list A) :
  (forall x, In x l -> f x = g x) -> array_map f l = array_map g l.
Proof.
  induction l as [|x l IH]; intros E; simpl; [reflexivity|].
  rewrite (E x) by (left; reflexivity).
  rewrite IH; [reflexivity|]. intros y Hy. apply E. right. exact Hy.
Qed.


Lemma get_property_In {V} (o : JSObject V) key v :
  get_property o key = Some v -> In (key, v) o.
Proof.
  induction o as [|[k v'] o IH]; simpl; [discriminate|].
  destruct (String.eqb_spec k key) as [->|_].
  - intros E. injection E as ->. left. reflexivity.
  - intros E. right. apply IH, E.
Qed.






(** X11. An entry of the results under an id that no audit of the
    configuration has does not change the output. *)
Theorem generateReportJson_ignores_unused cfg res key result :
  Forall
    (fun kv => Forall (fun a => def_id a <> key) (def_audits (snd kv)))
    (config_categories cfg) ->
  generateReportJson cfg ((key, result) :: res) = generateReportJson cfg res.
Proof.
  intros Hu. unfold generateReportJson.
  rewrite (array_map_ext_in (score_category cfg ((key, result) :: res))
             (score_category cfg res)); [reflexivity|].
  intros k _. unfold score_category.
  destruct (get_property (config_categories cfg) k) as [d|] eqn:G;
    [|reflexivity].
  apply get_property_In in G. rewrite Forall_forall in Hu.
  specialize (Hu _ G). simpl in Hu. rewrite Forall_forall in Hu.
  rewrite (array_map_ext_in (score_audit ((key, result) :: res))
             (score_audit res)); [reflexivity|].
  intros a Ha. unfold score_audit. simpl.
  destruct (String.eqb_spec key (def_id a)) as [E|_]; [|reflexivity].
  contradiction (Hu a Ha). symmetry. exact E.
Qed.

Lemma generateReportJson_ignores_unused_witness :
  generateReportJson perf_config results_with_extra
  = generateReportJson perf_config perf_results.
Proof.
  apply generateReportJson_ignores_unused.
  repeat constructor; simpl; discriminate.
Defined.

(** X12. A category whose audits all have a weight that is zero, absent or not
    a number gets the score [0], whatever the results of its audits; and
    when every category has such a weight the overall score is [0]. *)
Theorem generateReportJson_weightless cfg res tree :
  generateReportJson cfg res = inr tree ->
  Forall
    (fun c =>
       Forall (fun a => is_zero (coerce (audit_weight a)) = true)
         (category_audits c) ->
       category_score c = zero)
    (report_categories tree) /\
  (Forall (fun c => is_zero (coerce (category_weight c)) = true)
     (report_categories tree) ->
   report_score tree = zero).
Proof.
  intros E. apply generateReportJson_inr in E as [E Ho]. split.
  - apply array_map_inr in E.
    apply (Forall2_Forall_r _ _ _ _) with (2 := E).
    intros key c Hc.
    apply score_category_inr in Hc as (d & audits & _ & _ & ->). simpl.
    intros Hw.
    rewrite ArithmeticMeanFacts.arithmeticMean_all_weights_zero;
      [reflexivity | exact Hw].
  - intros Hw. rewrite Ho.
    apply ArithmeticMeanFacts.arithmeticMean_all_weights_zero. exact Hw.
Qed.

Lemma generateReportJson_weightless_witness :
  Forall
    (fun c =>
       Forall (fun a => is_zero (coerce (audit_weight a)) = true)
         (category_audits c) ->
       category_score c = zero)
    (report_categories weightless_tree) /\
  (Forall (fun c => is_zero (coerce (category_weight c)) = true)
     (report_categories weightless_tree) ->
   report_score weightless_tree = zero).
Proof.
  apply (generateReportJson_weightless weightless_config perf_results).
  reflexivity.
Defined.

End GenerateReportProperties.

(** * The renderer: what it returns and when it fails *)

Module RendererProperties.

Import ReportRenderer Spec Samples RenderSpec RenderSamples.
Import GenerateReportFacts RendererFacts.
Local Open Scope monad_scope.

Section DetailsInduction.
Variable P : DetailsJSON -> Prop.
Hypothesis step :
  forall type text header items,
    (forall children, items = Some children -> Forall P children) ->
    P (Details type text header items).


(** Induction on details: a property holds of every details node when it
    holds of a node as soon as it holds of its items. *)
Lemma DetailsJSON_induction : forall d, P d.
Proof.
  fix IH 1. intros [type text header [children|]]; apply step.
  - intros ch E. injection E as <-.
    induction children as [|c cs IHc]; constructor; [apply IH | exact IHc].
  - intros ch E. discriminate E.
Qed.
End DetailsInduction.

Lemma fold_appendChild children : forall tag classes attrs o existing,
  fold_left (fun el child => appendChild child el) children
    (Element tag classes attrs o existing)
  = Element tag classes attrs o (existing ++ children).
Proof.
  induction children as [|c cs IH]; intros; simpl.
  - rewrite app_nil_r. reflexivity.
  - rewrite IH, <- app_assoc. reflexivity.
Qed.

Lemma array_map_renderable (items : list DetailsJSON) :
  Forall
    (fun d =>
       (renderable d = true -> exists el, _renderDetails d = inr el) /\
       (renderable d = false ->
        exists e, _renderDetails d = inl e /\ render_failure e))
    items ->
  (forallb renderable items = true ->
   exists els, array_map _renderDetails items = inr els) /\
  (forallb renderable items = false ->
   exists e, array_map _renderDetails items = inl e /\ render_failure e).
Proof.
  induction 1 as [|d items [Hok Hko] _ [IHok IHko]]; simpl.
  - split; [eauto | discriminate].
  - destruct (renderable d) eqn:Rd; simpl.
    + destruct (Hok eq_refl) as [el ->]. simpl. split.
      * intros Hr. destruct (IHok Hr) as [els ->]. simpl. eauto.
      * intros Hr. destruct (IHko Hr) as (e & -> & He). simpl. eauto.
    + destruct (Hko eq_refl) as (e & -> & He). simpl.
      split; [discriminate | eauto].
Qed.

Lemma _renderDetails_unfold d :
  _renderDetails d
  = (let type := details_type d in
     if (type =? "text")%string then _renderText d
     else if (type =? "block")%string then _renderBlock _renderDetails d
     else if (type =? "list")%string then _renderList _renderDetails d
     else raise (Error ("Unknown type: " ++ type))).
Proof. destruct d; reflexivity. Qed.


(** Renderable details give an element; the others give one of the two
    failures. *)
Lemma _renderDetails_outcome d :
  (renderable d = true -> exists el, _renderDetails d = inr el) /\
  (renderable d = false ->
   exists e, _renderDetails d = inl e /\ render_failure e).
Proof.
  induction d as [type text header items IH] using DetailsJSON_induction.
  rewrite _renderDetails_unfold. cbn [renderable details_type details_items].
  cbv zeta.
  destruct (String.eqb_spec type "text") as [Et|Nt].
  - split; [|discriminate]. intros _. eexists. reflexivity.
  - destruct (String.eqb_spec type "block") as [Eb|Nb].
    + simpl orb. unfold _renderBlock. cbn [details_items].
      destruct items as [children|]; simpl.
      * destruct (array_map_renderable children (IH _ eq_refl)) as [Hok Hko].
        split; intros Hr.
        -- destruct (Hok Hr) as [els ->]. simpl. eauto.
        -- destruct (Hko Hr) as (e & -> & He). simpl. eauto.
      * split; [discriminate|]. intros _. eexists. split; [reflexivity|].
        right. eauto.
    + destruct (String.eqb_spec type "list") as [El|Nl].
      * simpl orb. unfold _renderList. cbn [details_items].
        destruct items as [children|]; simpl.
        -- destruct (array_map_renderable children (IH _ eq_refl)) as [Hok Hko].
           split; intros Hr.
           ++ destruct (Hok Hr) as [els ->]. simpl. eauto.
           ++ destruct (Hko Hr) as (e & -> & He). simpl. eauto.
        -- split; [discriminate|]. intros _. eexists. split; [reflexivity|].
           right. eauto.
      * simpl. split; [discriminate|]. intros _. eexists.
        split; [reflexivity|]. left. exists type. auto.
Qed.

(** X13. [_renderDetails] returns an element exactly for the details that
    are renderable: those of type [text], and those of type [block] or
    [list] whose items are present and all renderable. For any other
    details it throws, and what it throws is the error of an unknown type
    or the [TypeError] of items that cannot be iterated. *)
Theorem renderDetails_renderable d :
  (renderable d = true <-> exists el, _renderDetails d = inr el) /\
  (renderable d = false <->
   exists e, _renderDetails d = inl e /\ render_failure e).
Proof.
  destruct (_renderDetails_outcome d) as [Hok Hko].
  destruct (renderable d) eqn:R.
  - destruct (Hok eq_refl) as [el Hel]. rewrite Hel. split; split; eauto.
    + intros E. discriminate E.
    + intros (e & E & _). discriminate E.
  - destruct (Hko eq_refl) as (e & He & Hf). rewrite He. split; split; eauto.
    + intros E. discriminate E.
    + intros (el & E). discriminate E.
Qed.

Lemma textContent_Element tag classes attrs o children :
  textContent (Element tag classes attrs o children)
  = String.concat "" (map textContent children).
Proof. reflexivity. Qed.

Lemma array_map_reading (items : list DetailsJSON) els :
  Forall
    (fun d => forall el, _renderDetails d = inr el ->
                         textContent el = details_reading d) items ->
  array_map _renderDetails items = inr els ->
  map textContent els = map details_reading items.
Proof.
  intros HF E. apply array_map_inr in E.
  induction E as [|d el items els Hd _ IH]; [reflexivity|].
  inversion HF as [|? ? Hd' HF']; subst. simpl. f_equal; auto.
Qed.


(** X14. The element [_renderDetails] returns reads as the details do: its
    text content is the text of a [text] node, the texts of the items of a
    [block] in order, and for a [list] the text of the header followed by
    the texts of the items. *)
Theorem renderDetails_reading d : forall el,
  _renderDetails d = inr el -> textContent el = details_reading d.
Proof.
  induction d as [type text header items IH] using DetailsJSON_induction.
  intros el. rewrite _renderDetails_unfold.
  cbn [details_reading details_type details_items details_text details_header].
  cbv zeta.
  destruct (String.eqb_spec type "text") as [Et|Nt].
  - unfold _renderText. simpl. intros E. injection E as <-.
    destruct text as [[|c s]|]; reflexivity.
  - destruct (String.eqb_spec type "block") as [Eb|Nb].
    + unfold _renderBlock. cbn [details_items].
      destruct items as [children|]; simpl; [|intros E; discriminate E].
      destruct (array_map _renderDetails children) as [e|els] eqn:Ea; simpl;
        intros E; [discriminate E|]. injection E as <-.
      unfold DOM.createElement. rewrite fold_appendChild. simpl app.
      rewrite textContent_Element.
      rewrite (array_map_reading children els (IH _ eq_refl) Ea). reflexivity.
    + destruct (String.eqb_spec type "list") as [El|Nl].
      * unfold _renderList. cbn [details_items details_header].
        destruct items as [children|]; [|destruct header; intros E; discriminate E].
        destruct (array_map _renderDetails children) as [e|els] eqn:Ea.
        -- destruct header; simpl; intros E; discriminate E.
        -- pose proof (array_map_reading children els (IH _ eq_refl) Ea) as Hm.
           destruct header as [h|]; cbn [bind ret Monad_either]; intros E;
             injection E as <-; unfold DOM.createElement;
             rewrite fold_appendChild; simpl app.
           ++ cbn [appendChild map_children app].
              rewrite textContent_Element. cbn [map].
              rewrite (textContent_Element "div"), Hm.
              destruct (details_text h) as [[|c s]|]; reflexivity.
           ++ cbn [appendChild map_children app].
              rewrite textContent_Element. cbn [map].
              rewrite textContent_Element, Hm. reflexivity.
      * simpl. intros E. discriminate E.
Qed.

Lemma renderDetails_reading_witness :
  textContent list_details_element = details_reading list_details.
Proof. apply renderDetails_reading. reflexivity. Defined.


(** [map] stops at the first element on which the callback throws. *)
Lemma array_map_first_failure {A B} (f : A -> M B) ok x rest e :
  Forall (fun y => exists z, f y = inr z) ok ->
  f x = inl e ->
  array_map f (ok ++ x :: rest) = inl e.
Proof.
  intros Hok Hx. induction Hok as [|y ok [z Hy] _ IH]; simpl.
  - rewrite Hx. reflexivity.
  - rewrite Hy. simpl. rewrite IH. reflexivity.
Qed.


(** X17. When the categories before some category render and that category
    throws, [renderReport] returns the exception element of what it threw:
    nothing of the categories rendered before it is kept, and the
    categories after it are not looked at. *)
Theorem renderReport_first_failure host report ok c rest e :
  reportCategories report = (ok ++ c :: rest)%list ->
  Forall (fun c' => exists n, _renderCategory host c' = inr n) ok ->
  _renderCategory host c = inl e ->
  renderReport host report = _renderException host e.
Proof.
  intros Er Hok Hc. unfold renderReport, _renderReport. rewrite Er.
  rewrite (array_map_first_failure _ ok c rest e Hok Hc). reflexivity.
Qed.

Lemma renderReport_first_failure_witness :
  renderReport sample_host second_fails_report
  = _renderException sample_host (Error "Unknown type: graph").
Proof.
  apply (renderReport_first_failure sample_host second_fails_report
           [sample_category []]
           (sample_category
              [sample_audit
                 (sample_result None None
                    (Some (Details "graph" None None None)))])
           []).
  - reflexivity.
  - constructor; [|constructor]. eexists. vm_compute. reflexivity.
  - vm_compute. reflexivity.
Defined.

Lemma _renderCategory_inr host c n :
  _renderCategory host c = inr n ->
  exists score audits,
    n = Element "div" ["lighthouse-category"] [] None (score ++ audits) /\
    _renderScore host (category_score c) (category_name c)
      (category_description c) (inr c) = inr score /\
    array_map (_renderAudit host) (category_audits c) = inr audits.
Proof.
  unfold _renderCategory.
  destruct (_renderScore host _ _ _ _) as [e|score];
    [intros E; discriminate E|].
  destruct (array_map _ _) as [e|audits] eqn:Ea; intros E; [discriminate E|].
  injection E as <-. exists score, audits.
  unfold DOM.createElement, appendFragment, map_children.
  rewrite fold_appendChild. auto.
Qed.

Lemma _renderAudit_inr host a m :
  _renderAudit host a = inr m ->
  exists frag,
    m = Element "div" ["lighthouse-audit"] [] None frag /\
    _renderScore host (audit_score a) (audit_title a)
      (result_helpText (audit_result a)) (inl a) = inr frag.
Proof.
  unfold _renderAudit.
  destruct (_renderScore host _ _ _ _) as [e|frag]; simpl; intros E;
    [discriminate E|].
  injection E as <-. eauto.
Qed.


(** X16. The element [_renderReport] returns is a [div] of class
    [lighthouse-report] with one child per category, in order. Each is a
    [div] of class [lighthouse-category] that holds the score fragment of
    the category followed by one [div] of class [lighthouse-audit] per
    audit, in order, each holding the score fragment of its audit. *)
Theorem renderReport_structure host report el :
  _renderReport host report = inr el ->
  exists categories,
    el = Element "div" ["lighthouse-report"] [] None categories /\
    Forall2
      (fun c n =>
         exists score audits,
           n = Element "div" ["lighthouse-category"] [] None
                 (score ++ audits) /\
           _renderScore host (category_score c) (category_name c)
             (category_description c) (inr c) = inr score /\
           Forall2
             (fun a m =>
                exists frag,
                  m = Element "div" ["lighthouse-audit"] [] None frag /\
                  _renderScore host (audit_score a) (audit_title a)
                    (result_helpText (audit_result a)) (inl a) = inr frag)
             (category_audits c) audits)
      (reportCategories report) categories.
Proof.
  unfold _renderReport.
  destruct (array_map _ _) as [e|categories] eqn:Ec; intros E;
    [discriminate E|].
  injection E as <-. exists categories.
  unfold DOM.createElement. rewrite fold_appendChild.
  split; [reflexivity|].
  apply array_map_inr in Ec.
  apply (Forall2_Forall_l (fun _ => True) _ _ _ _) with (3 := Ec).
  - apply Forall_forall. auto.
  - intros c n _ Hc.
    apply _renderCategory_inr in Hc as (score & audits & -> & Hs & Ha).
    exists score, audits. repeat split; [exact Hs|].
    apply array_map_inr in Ha.
    apply (Forall2_Forall_l (fun _ => True) _ _ _ _) with (3 := Ha).
    + apply Forall_forall. auto.
    + intros a m _ Hm. apply _renderAudit_inr, Hm.
Qed.

Lemma renderReport_structure_witness :
  exists categories,
    detailed_report_element
    = Element "div" ["lighthouse-report"] [] None categories /\
    Forall2
      (fun c n =>
         exists score audits,
           n = Element "div" ["lighthouse-category"] [] None
                 (score ++ audits) /\
           _renderScore sample_host (category_score c) (category_name c)
             (category_description c) (inr c) = inr score /\
           Forall2
             (fun a m =>
                exists frag,
                  m = Element "div" ["lighthouse-audit"] [] None frag /\
                  _renderScore sample_host (audit_score a) (audit_title a)
                    (result_helpText (audit_result a)) (inl a) = inr frag)
             (category_audits c) audits)
      (reportCategories detailed_report) categories.
Proof.
  apply (renderReport_structure sample_host detailed_report).
  vm_compute. reflexivity.
Defined.


(** X18. A report without categories renders with no template at all. A
    report with a category is rendered as the exception element of
    [Template not found] for the category score template when that one is
    missing, and for the audit score template when only that one is
    missing and the first category has an audit. *)
Theorem renderReport_templates host :
  renderReport host {| reportCategories := [] |}
  = inr (Element "div" ["lighthouse-report"] [] None []) /\
  (forall c rest,
     get_property (templates host) "#tmpl-lighthouse-category-score" = None ->
     renderReport host {| reportCategories := c :: rest |}
     = _renderException host
         (Error "Template not found: template#tmpl-lighthouse-category-score")) /\
  (forall c rest a audits,
     get_property (templates host) "#tmpl-lighthouse-category-score" <> None ->
     get_property (templates host) "#tmpl-lighthouse-audit-score" = None ->
     category_audits c = a :: audits ->
     renderReport host {| reportCategories := c :: rest |}
     = _renderException host
         (Error "Template not found: template#tmpl-lighthouse-audit-score")).
Proof.
  split; [reflexivity|]. split.
  - intros c rest Hn.
    unfold renderReport, _renderReport. cbn [reportCategories].
    change (c :: rest) with ([] ++ c :: rest)%list.
    rewrite (array_map_first_failure (_renderCategory host) [] c rest
               (Error "Template not found: template#tmpl-lighthouse-category-score"));
      [reflexivity | constructor |].
    unfold _renderCategory, _renderScore, DOM.cloneTemplate.
    rewrite Hn. reflexivity.
  - intros c rest a audits Hc Ha Eaud.
    unfold renderReport, _renderReport. cbn [reportCategories].
    change (c :: rest) with ([] ++ c :: rest)%list.
    rewrite (array_map_first_failure (_renderCategory host) [] c rest
               (Error "Template not found: template#tmpl-lighthouse-audit-score"));
      [reflexivity | constructor |].
    unfold _renderCategory.
    assert (Hs : exists score,
               _renderScore host (category_score c) (category_name c)
                 (category_description c) (inr c) = inr score).
    { unfold _renderScore, DOM.cloneTemplate.
      destruct (get_property (templates host)
                  "#tmpl-lighthouse-category-score") as [t|];
        [|contradiction Hc; reflexivity].
      simpl. eexists. reflexivity. }
    destruct Hs as [score ->]. simpl. rewrite Eaud. simpl.
    unfold _renderAudit at 1, _renderScore, DOM.cloneTemplate.
    rewrite Ha. reflexivity.
Qed.


(** *** References into a fragment *)

Section FindFirstFacts.
Context {A : Type}.
Variable find : A -> option Ref.

Lemma find_first_found (l : list A) : forall b r,
  find_first find l b = Some r ->
  exists i x r',
    r = (b + i) :: r' /\ nth_error l i = Some x /\ find x = Some r' /\
    forall k y, k < i -> nth_error l k = Some y -> find y = None.
Proof.
  induction l as [|x l IH]; intros b r; simpl; [intros E; discriminate E|].
  destruct (find x) as [r0|] eqn:Ex.
  - intros E. injection E as <-. exists 0, x, r0.
    rewrite Nat.add_0_r. repeat split; auto.
    intros k y Hk. inversion Hk.
  - intros E. apply IH in E as (i & y & r' & -> & Hn & Hf & Hb).
    exists (S i), y, r'. rewrite Nat.add_succ_r. repeat split; auto.
    intros [|k] z Hk; simpl; intros Hz.
    + injection Hz as <-. exact Ex.
    + apply (Hb k z); [lia | exact Hz].
Qed.

Lemma find_first_at (l : list A) : forall b i x r',
  nth_error l i = Some x -> find x = Some r' ->
  (forall k y, k < i -> nth_error l k = Some y -> find y = None) ->
  find_first find l b = Some ((b + i) :: r').
Proof.
  induction l as [|x0 l IH]; intros b i x r' Hn Hf Hb.
  - destruct i; discriminate Hn.
  - destruct i as [|i]; simpl in *.
    + injection Hn as ->. rewrite Hf, Nat.add_0_r. reflexivity.
    + rewrite (Hb 0 x0) by (auto; lia).
      rewrite (IH (S b) i x r' Hn Hf).
      * rewrite Nat.add_succ_r. reflexivity.
      * intros k y Hk Hy. apply (Hb (S k) y); [lia | exact Hy].
Qed.

End FindFirstFacts.

Lemma nth_error_update_nth {A} (f : A -> A) (l : list A) : forall i k,
  nth_error (update_nth i f l) k
  = if Nat.eqb k i then option_map f (nth_error l k) else nth_error l k.
Proof.
  induction l as [|x l IH]; intros i k; simpl.
  - destruct i, k; simpl; try reflexivity; destruct (Nat.eqb _ _); reflexivity.
  - destruct i as [|i], k as [|k]; simpl; try reflexivity. apply IH.
Qed.

Lemma find_node_unfold p n :
  find_node p n
  = if p n then Some []
    else find_first (find_node p) (children_of n) 0.
Proof. destruct n; simpl; destruct (p _); reflexivity. Qed.

Lemma find_first_nonempty {A} (find : A -> option Ref) l b :
  find_first find l b <> Some [].
Proof.
  intros E. apply find_first_found in E as (i & x & r' & E & _).
  discriminate E.
Qed.

(** A reference found by a search leads to a node that satisfies the
    predicate. *)
Lemma find_first_node_at p : forall r tmpl,
  find_first (find_node p) tmpl 0 = Some r ->
  exists n, node_at r tmpl = Some n /\ p n = true.
Proof.
  induction r as [|i r IH]; intros tmpl E.
  - apply find_first_nonempty in E as [].
  - apply find_first_found in E as (j & x & r' & E & Hn & Hf & _).
    injection E as -> <-. simpl plus in *.
    rewrite find_node_unfold in Hf. simpl. rewrite Hn.
    destruct (p x) eqn:Px.
    + injection Hf as <-. exists x. auto.
    + destruct r as [|k r]; [apply find_first_nonempty in Hf as []|].
      destruct x as [|t c a o children]; [discriminate Hf|].
      apply IH. exact Hf.
Qed.

Lemma node_at_update_at f : forall r tmpl n,
  node_at r tmpl = Some n ->
  node_at r (update_at r f tmpl) = Some (f n).
Proof.
  induction r as [|i r IH]; intros tmpl n; [intros E; discriminate E|].
  simpl. destruct (nth_error tmpl i) as [x|] eqn:Ex; [|intros E; discriminate E].
  destruct r as [|k r].
  - intros E. injection E as <-.
    rewrite nth_error_update_nth, Nat.eqb_refl, Ex. reflexivity.
  - destruct x as [|t c a o children]; [intros E; discriminate E|].
    intros E. rewrite nth_error_update_nth, Nat.eqb_refl, Ex. simpl.
    apply IH. exact E.
Qed.

(** Changing the found node, in a way that keeps it satisfying the
    predicate, leaves it the first one found. *)
Lemma find_first_update_at p f :
  (forall g n, p (map_children g n) = p n) ->
  (forall n, p n = true -> p (f n) = true) ->
  forall r tmpl,
    find_first (find_node p) tmpl 0 = Some r ->
    find_first (find_node p) (update_at r f tmpl) 0 = Some r.
Proof.
  intros Hmap Hf. induction r as [|i r IH]; intros tmpl E.
  - apply find_first_nonempty in E as [].
  - apply find_first_found in E as (j & x & r' & E & Hn & Hx & Hb).
    injection E as -> <-. simpl plus in *.
    assert (Hbefore : forall g k y, k < j ->
              nth_error (update_nth j g tmpl) k = Some y ->
              find_node p y = None).
    { intros g k y Hk. rewrite nth_error_update_nth.
      destruct (Nat.eqb_spec k j) as [->|_]; [lia|]. apply Hb, Hk. }
    rewrite find_node_unfold in Hx.
    destruct (p x) eqn:Px.
    + injection Hx as <-. simpl.
      apply (find_first_at _ _ 0 j (f x) []).
      * rewrite nth_error_update_nth, Nat.eqb_refl, Hn. reflexivity.
      * rewrite find_node_unfold, (Hf x Px). reflexivity.
      * apply Hbefore.
    + destruct r as [|k r]; [apply find_first_nonempty in Hx as []|].
      change (update_at (j :: k :: r) f tmpl)
        with (update_nth j (map_children (update_at (k :: r) f)) tmpl).
      apply (find_first_at _ _ 0 j
               (map_children (update_at (k :: r) f) x) (k :: r)).
      * rewrite nth_error_update_nth, Nat.eqb_refl, Hn. reflexivity.
      * rewrite find_node_unfold, Hmap, Px.
        destruct x as [|t c a o children]; [discriminate Hx|].
        apply IH. exact Hx.
      * apply Hbefore.
Qed.

Lemma hasClass_map_children cls g n :
  hasClass cls (map_children g n) = hasClass cls n.
Proof. destruct n; reflexivity. Qed.

Lemma hasClass_set_open cls b n :
  hasClass cls (set_open b n) = hasClass cls n.
Proof. destruct n; reflexivity. Qed.

Lemma querySelector_update_at cls f r tmpl :
  (forall n, hasClass cls n = true -> hasClass cls (f n) = true) ->
  querySelector (String "." cls) tmpl = Some r ->
  querySelector (String "." cls) (update_at r f tmpl) = Some r.
Proof.
  intros Hf. unfold querySelector.
  apply find_first_update_at; [apply hasClass_map_children | exact Hf].
Qed.

Lemma querySelector_node_at cls r tmpl :
  querySelector (String "." cls) tmpl = Some r ->
  exists t c a o children,
    node_at r tmpl = Some (Element t c a o children) /\
    existsb (String.eqb cls) c = true.
Proof.
  unfold querySelector. intros E.
  apply find_first_node_at in E as ([|t c a o children] & Hn & Hc);
    [discriminate Hc|].
  exists t, c, a, o, children. auto.
Qed.

(** *** The score fragment *)


(** [_renderScore] either fails on the template, or fills in the blanks
    and then, for an audit whose fragment has a header, sets [open] on it
    and appends the rendered details to it. *)
Lemma _renderScore_shape host score title description x :
  match get_property (templates host) (score_template_selector x) with
  | None =>
      _renderScore host score title description x
      = inl (Error ("Template not found: template"
                    ++ score_template_selector x))
  | Some tmpl =>
      exists filled,
        match x, querySelector ".lighthouse-score__header" filled with
        | inl audit, Some r =>
            let opened :=
              update_at r (set_open (num_lt score (Z2SF 100))) filled in
            _renderScore host score title description x
            = match result_details (audit_result audit) with
              | Some details =>
                  child <- _renderDetails details ;;
                  ret (update_at r (appendChild child) opened)
              | None => ret opened
              end
        | _, _ => _renderScore host score title description x = inr filled
        end
  end.
Proof.
  unfold _renderScore, DOM.cloneTemplate, score_template_selector.
  destruct x as [audit|category];
    destruct (get_property (templates host) _) as [tmpl|]; try reflexivity.
  - cbv zeta. change (bind (ret tmpl) ?f) with (f tmpl). cbv beta.
    match goal with
    | |- context [DOM.setText ?t ?r description] =>
        exists (DOM.setText t r description)
    end.
    destruct (querySelector ".lighthouse-score__header" _); reflexivity.
  - cbv zeta. change (bind (ret tmpl) ?f) with (f tmpl). cbv beta.
    match goal with
    | |- context [DOM.setText ?t ?r description] =>
        exists (DOM.setText t r description)
    end.
    reflexivity.
Qed.


(** X20. [_renderScore] throws in two cases only: the template it clones is
    missing, or it is given an audit whose result has details that are not
    renderable, and then it throws what [_renderDetails] throws for them. *)
Theorem renderScore_failure host score title description x e :
  _renderScore host score title description x = inl e ->
  e = Error ("Template not found: template" ++ score_template_selector x) \/
  exists audit details,
    x = inl audit /\
    result_details (audit_result audit) = Some details /\
    renderable details = false /\
    _renderDetails details = inl e.
Proof.
  pose proof (_renderScore_shape host score title description x) as S.
  destruct (get_property (templates host) _) as [tmpl|].
  - destruct S as [filled S]. intros E. right.
    destruct x as [audit|category]; [|rewrite S in E; discriminate E].
    destruct (querySelector _ filled) as [r|];
      [|rewrite S in E; discriminate E].
    cbv zeta in S. rewrite S in E. clear S.
    destruct (result_details (audit_result audit)) as [details|] eqn:Ed;
      [|discriminate E].
    exists audit, details.
    destruct (_renderDetails details) as [e'|child] eqn:Er;
      [|discriminate E].
    injection E as <-. repeat split; auto.
    destruct (renderable details) eqn:R; [|reflexivity].
    destruct (_renderDetails_outcome details) as [Hok _].
    destruct (Hok R) as [el Hel]. rewrite Hel in Er. discriminate Er.
  - rewrite S. intros E. injection E as <-. left. reflexivity.
Qed.

Lemma renderScore_failure_witness :
  Error "Template not found: template#tmpl-lighthouse-category-score"
  = Error ("Template not found: template"
           ++ score_template_selector (inr (sample_category []))) \/
  exists audit details,
    inr (sample_category []) = inl audit /\
    result_details (audit_result audit) = Some details /\
    renderable details = false /\
    _renderDetails details
    = inl (Error
             "Template not found: template#tmpl-lighthouse-category-score").
Proof.
  apply (renderScore_failure bare_host (Z2SF 92) "Perf" "Performance").
  reflexivity.
Defined.


(** With its template in the document, and renderable details if it is
    given an audit, [_renderScore] returns a fragment. *)
Lemma _renderScore_total host score title description x :
  get_property (templates host) (score_template_selector x) <> None ->
  (forall audit details,
     x = inl audit -> result_details (audit_result audit) = Some details ->
     renderable details = true) ->
  exists frag, _renderScore host score title description x = inr frag.
Proof.
  intros Ht Hd.
  pose proof (_renderScore_shape host score title description x) as S.
  destruct (get_property (templates host) _) as [tmpl|];
    [|contradiction Ht; reflexivity].
  destruct S as [filled S].
  destruct x as [audit|category]; [|rewrite S; eexists; reflexivity].
  destruct (querySelector _ filled) as [r|]; cbv zeta in S;
    [|rewrite S; eexists; reflexivity].
  specialize (Hd audit).
  destruct (result_details (audit_result audit)) as [details|];
    [|rewrite S; eexists; reflexivity].
  destruct (_renderDetails_outcome details) as [Hok _].
  destruct (Hok (Hd details eq_refl eq_refl)) as [el Hel].
  rewrite S, Hel. eexists. reflexivity.
Qed.

Lemma array_map_length {A B} (f : A -> M B) l ys :
  array_map f l = inr ys -> List.length ys = List.length l.
Proof.
  intros E. apply array_map_inr in E.
  induction E; simpl; congruence.
Qed.


(** X19. With both score templates in the document and the details of
    every audit renderable, [renderReport] returns the report element, not
    an exception element, and it has one child per category. *)
Theorem renderReport_renderable host report :
  get_property (templates host) "#tmpl-lighthouse-category-score" <> None ->
  get_property (templates host) "#tmpl-lighthouse-audit-score" <> None ->
  Forall
    (fun c =>
       Forall
         (fun a =>
            forall details,
              result_details (audit_result a) = Some details ->
              renderable details = true)
         (category_audits c))
    (reportCategories report) ->
  exists categories,
    renderReport host report
    = inr (Element "div" ["lighthouse-report"] [] None categories) /\
    List.length categories = List.length (reportCategories report).
Proof.
  intros Hc Ha Hd.
  assert (Hcat : Forall (fun c => exists n, _renderCategory host c = inr n)
                   (reportCategories report)).
  { apply Forall_forall. intros c Hin.
    rewrite Forall_forall in Hd. specialize (Hd c Hin).
    unfold _renderCategory.
    destruct (_renderScore_total host (category_score c) (category_name c)
                (category_description c) (inr c)) as [score Hs];
      [exact Hc | intros a d E; discriminate E |].
    rewrite Hs. simpl.
    destruct (array_map_total (_renderAudit host) (category_audits c))
      as [audits Hau].
    { apply Forall_forall. intros a Hina.
      rewrite Forall_forall in Hd. specialize (Hd a Hina).
      unfold _renderAudit.
      destruct (_renderScore_total host (audit_score a) (audit_title a)
                  (result_helpText (audit_result a)) (inl a)) as [frag Hf];
        [exact Ha | |].
      - intros a' d E Ed. injection E as <-. apply Hd, Ed.
      - rewrite Hf. simpl. eauto. }
    rewrite Hau. simpl. eauto. }
  destruct (array_map_total _ _ Hcat) as [categories Hm].
  exists categories. split; [|apply (array_map_length _ _ _ Hm)].
  unfold renderReport, _renderReport. rewrite Hm.
  unfold DOM.createElement. simpl bind. unfold ret; simpl.
  rewrite fold_appendChild. reflexivity.
Qed.

Lemma renderReport_renderable_witness :
  exists categories,
    renderReport sample_host detailed_report
    = inr (Element "div" ["lighthouse-report"] [] None categories) /\
    List.length categories = List.length (reportCategories detailed_report).
Proof.
  apply (renderReport_renderable sample_host detailed_report).
  - simpl. discriminate.
  - simpl. discriminate.
  - repeat constructor. intros details E. injection E as <-. reflexivity.
Defined.

Lemma ret_inr {A} (x y : A) : (ret x : M A) = inr y -> x = y.
Proof. intros E. injection E as <-. reflexivity. Qed.


(** X21. In the score fragment of an audit, the first element of class
    [lighthouse-score__header], when there is one, has its [open] property
    set to whether the score is below 100, and when the result of the
    audit has details its last child is the element [_renderDetails]
    returns for them. *)
Theorem renderScore_audit_header host score title description audit frag r :
  _renderScore host score title description (inl audit) = inr frag ->
  querySelector ".lighthouse-score__header" frag = Some r ->
  exists tagName classList attributes children,
    node_at r frag
    = Some (Element tagName classList attributes
              (Some (num_lt score (Z2SF 100))) children) /\
    forall details,
      result_details (audit_result audit) = Some details ->
      exists child before,
        _renderDetails details = inr child /\
        children = (before ++ [child])%list.
Proof.
  pose proof (_renderScore_shape host score title description (inl audit))
    as S.
  destruct (get_property (templates host) _) as [tmpl|];
    [|intros E; rewrite S in E; discriminate E].
  destruct S as [filled S].
  destruct (querySelector ".lighthouse-score__header" filled) as [r0|]
    eqn:Eh.
  - cbv zeta in S. intros E Hq. rewrite S in E. clear S.
    pose proof (querySelector_node_at _ _ _ Eh)
      as (t & c & a & o & children & Hn & Hc).
    pose proof (querySelector_update_at _
                  (set_open (num_lt score (Z2SF 100))) _ _
                  (fun n H => eq_trans (hasClass_set_open _ _ n) H) Eh)
      as Eo.
    pose proof (node_at_update_at (set_open (num_lt score (Z2SF 100)))
                  _ _ _ Hn) as Hno.
    destruct (result_details (audit_result audit)) as [details|].
    + destruct (_renderDetails details) as [e|child] eqn:Er;
        [discriminate E|].
      apply ret_inr in E. subst frag.
      pose proof (querySelector_update_at _ (appendChild child) _ _
                    (fun n H => eq_trans (hasClass_map_children _ _ n) H) Eo)
        as Ec.
      pose proof (eq_trans (eq_sym Hq) Ec) as Eq. injection Eq as ->.
      exists t, c, a, (children ++ [child])%list.
      split; [exact (node_at_update_at (appendChild child) _ _ _ Hno)|].
      intros d Ed. injection Ed as <-. exists child, children. auto.
    + apply ret_inr in E. subst frag.
      pose proof (eq_trans (eq_sym Hq) Eo) as Eq. injection Eq as ->.
      exists t, c, a, children. split; [exact Hno|].
      intros d Ed. discriminate Ed.
  - intros E Hq. rewrite S in E. injection E as <-.
    rewrite Eh in Hq. discriminate Hq.
Qed.

Lemma renderScore_audit_header_witness :
  exists tagName classList attributes children,
    node_at [0; 1] detailed_audit_score
    = Some (Element tagName classList attributes
              (Some (num_lt (Z2SF 92) (Z2SF 100))) children) /\
    forall details,
      result_details (audit_result detailed_audit) = Some details ->
      exists child before,
        _renderDetails details = inr child /\
        children = (before ++ [child])%list.
Proof.
  apply (renderScore_audit_header sample_host (Z2SF 92)
           (audit_title detailed_audit) "help").
  - vm_compute. reflexivity.
  - reflexivity.
Defined.


(** X15. The element [_renderDetails] returns mirrors the details. A
    [text] node gives a [div] of class [lighthouse-text] with its text. A
    [block] gives a [div] of class [lighthouse-block] whose children are
    its rendered items, one per item and in order. A [list] gives a
    [details] element of class [lighthouse-list] whose children are the
    [summary] of its header, when it has one, and then one [div] of class
    [lighthouse-list__items] with the rendered items, one per item and in
    order. *)
Theorem renderDetails_structure type text header items el :
  _renderDetails (Details type text header items) = inr el ->
  (type = "text" /\
   el = set_textContent (text_or_empty text)
          (Element "div" ["lighthouse-text"] [] None [])) \/
  (exists children rendered,
     items = Some children /\
     Forall2 (fun item child => _renderDetails item = inr child)
       children rendered /\
     ((type = "block" /\
       el = Element "div" ["lighthouse-block"] [] None rendered) \/
      (type = "list" /\
       el = Element "details" ["lighthouse-list"] [] None
              (match header with
               | Some h =>
                   [set_textContent (text_or_empty (details_text h))
                      (Element "summary" ["lighthouse-list__header"] []
                         None [])]
               | None => []
               end
               ++ [Element "div" ["lighthouse-list__items"] [] None
                     rendered])))).
Proof.
  rewrite _renderDetails_unfold. cbn [details_type]. cbv zeta.
  destruct (String.eqb_spec type "text") as [Et|Nt].
  - intros E. apply ret_inr in E. left. split; [exact Et|].
    rewrite <- E. reflexivity.
  - destruct (String.eqb_spec type "block") as [Eb|Nb].
    + unfold _renderBlock. cbn [details_items].
      destruct items as [children|]; [|intros E; discriminate E].
      destruct (array_map _renderDetails children) as [e|rendered] eqn:Ea;
        [intros E; discriminate E|].
      intros E. apply ret_inr in E. right. exists children, rendered.
      split; [reflexivity|]. split; [apply array_map_inr, Ea|].
      left. split; [exact Eb|]. rewrite <- E.
      unfold DOM.createElement. rewrite fold_appendChild. reflexivity.
    + destruct (String.eqb_spec type "list") as [El|Nl];
        [|intros E; discriminate E].
      unfold _renderList. cbn [details_items details_header].
      destruct items as [children|]; [|intros E; discriminate E].
      destruct (array_map _renderDetails children) as [e|rendered] eqn:Ea;
        [intros E; discriminate E|].
      intros E. apply ret_inr in E. right. exists children, rendered.
      split; [reflexivity|]. split; [apply array_map_inr, Ea|].
      right. split; [exact El|]. rewrite <- E.
      unfold DOM.createElement. rewrite fold_appendChild.
      destruct header as [h|]; reflexivity.
Qed.

Lemma renderDetails_structure_witness :
  ("list" = "text" /\
   list_details_element
   = set_textContent (text_or_empty None)
       (Element "div" ["lighthouse-text"] [] None [])) \/
  (exists children rendered,
     details_items list_details = Some children /\
     Forall2 (fun item child => _renderDetails item = inr child)
       children rendered /\
     (("list" = "block" /\
       list_details_element
       = Element "div" ["lighthouse-block"] [] None rendered) \/
      ("list" = "list" /\
       list_details_element
       = Element "details" ["lighthouse-list"] [] None
           (match details_header list_details with
            | Some h =>
                [set_textContent (text_or_empty (details_text h))
                   (Element "summary" ["lighthouse-list__header"] []
                      None [])]
            | None => []
            end
            ++ [Element "div" ["lighthouse-list__items"] [] None
                  rendered])))).
Proof.
  apply (renderDetails_structure "list" None
           (details_header list_details)).
  reflexivity.
Defined.

(** ** Ratings *)

Lemma Z2SF_thresholds :
  Z2SF 100 = S754_finite false 7036874417766400 (-46) /\
  Z2SF 75 = S754_finite false 5277655813324800 (-46) /\
  Z2SF 45 = S754_finite false 6333186975989760 (-47).
Proof. vm_compute. auto. Qed.


(** Only a finite number itself is [===] to it. *)
Lemma strict_eq_finite score m0 e0 :
  strict_eq score (S754_finite false m0 e0) = true ->
  score = S754_finite false m0 e0.
Proof.
  unfold strict_eq, SFeqb, SFcompare.
  destruct score as [s| s| |s m e]; try (destruct s);
    try (intros E; discriminate E).
  destruct (Z.compare_spec e e0) as [-> | |]; try (intros E; discriminate E).
  pose proof (Pos.compare_spec m m0) as C.
  unfold Pos.compare in C.
  destruct C as [-> | |]; try (intros E; discriminate E).
  reflexivity.
Qed.

Lemma strict_eq_100 score :
  strict_eq score (Z2SF 100) = true -> score = Z2SF 100.
Proof.
  destruct Z2SF_thresholds as (E100 & _ & _).
  rewrite E100. apply strict_eq_finite.
Qed.

Lemma num_ge_nan y : num_ge NaN y = false.
Proof. destruct y; reflexivity. Qed.

Lemma strict_eq_nan y : strict_eq NaN y = false.
Proof. reflexivity. Qed.

Lemma is_nan_eq score : is_nan score = true -> score = NaN.
Proof. destruct score; intros E; try discriminate E. reflexivity. Qed.

(** X22. Whatever the precision, [calculateRating] returns one of the
    three labels; it returns [average] for the precision [numeric] only; a
    score it rates [pass] is at least 75; and [NaN] is rated [fail]. *)
Theorem calculateRating_labels score precision :
  (calculateRating score precision = "pass" \/
   calculateRating score precision = "average" \/
   calculateRating score precision = "fail") /\
  (calculateRating score precision = "average" -> precision = "numeric") /\
  (calculateRating score precision = "pass" ->
   num_ge score (Z2SF 75) = true) /\
  (is_nan score = true -> calculateRating score precision = "fail").
Proof.
  unfold calculateRating, RATINGS.PASS_label, RATINGS.AVERAGE_label,
    RATINGS.FAIL_label, RATINGS.PASS_minScore, RATINGS.AVERAGE_minScore.
  destruct (String.eqb_spec precision "numeric") as [->|N].
  - destruct (num_ge score (Z2SF 75)) eqn:E75;
      [|destruct (num_ge score (Z2SF 45)) eqn:E45]; cbv zeta.
    + repeat split; auto; try (intros E; discriminate E).
      intros Hn. apply is_nan_eq in Hn. subst score.
      rewrite num_ge_nan in E75. discriminate E75.
    + repeat split; auto; try (intros E; discriminate E).
      intros Hn. apply is_nan_eq in Hn. subst score.
      rewrite num_ge_nan in E45. discriminate E45.
    + repeat split; auto; intros E; discriminate E.
  - destruct (strict_eq score (Z2SF 100)) eqn:E100; cbv zeta.
    + repeat split; auto; try (intros E; discriminate E).
      * intros _. apply strict_eq_100 in E100. subst score.
        vm_compute. reflexivity.
      * intros Hn. apply is_nan_eq in Hn. subst score.
        rewrite strict_eq_nan in E100. discriminate E100.
    + repeat split; auto; intros E; discriminate E.
Qed.


(** X23. For an audit, the rating and the expansion of the header agree: a
    score rated [pass] leaves the header closed, and a header that is
    opened goes with the rating [fail]. For a result whose score is a
    boolean, the score [generateReportJson] gives the audit is rated
    [pass] and leaves the header closed when the boolean is [true], and is
    rated [fail] and opens the header when it is [false]. *)
Theorem audit_rating_and_expansion score :
  (score_rating true score = "pass" -> num_lt score (Z2SF 100) = false) /\
  (num_lt score (Z2SF 100) = true -> score_rating true score = "fail") /\
  (forall result b,
     result_score result = VBoolean b ->
     score_rating true (ReportGeneratorV2.auditScore_of result)
     = (if b then "pass" else "fail") /\
     num_lt (ReportGeneratorV2.auditScore_of result) (Z2SF 100) = negb b).
Proof.
  assert (H100 : num_lt (Z2SF 100) (Z2SF 100) = false)
    by (vm_compute; reflexivity).
  assert (H0 : strict_eq zero (Z2SF 100) = false /\
               num_lt zero (Z2SF 100) = true /\
               strict_eq (Z2SF 100) (Z2SF 100) = true)
    by (vm_compute; auto).
  destruct H0 as (H0 & H0' & H1).
  unfold score_rating, score_precision, calculateRating.
  change ("binary" =? "numeric") with false. cbv iota.
  split; [|split].
  - destruct (strict_eq score (Z2SF 100)) eqn:E; [|intros H; discriminate H].
    intros _. apply strict_eq_100 in E. subst score. exact H100.
  - destruct (strict_eq score (Z2SF 100)) eqn:E; [|reflexivity].
    apply strict_eq_100 in E. subst score. rewrite H100.
    intros H. discriminate H.
  - intros result b Hb. unfold ReportGeneratorV2.auditScore_of.
    rewrite Hb. destruct b.
    + rewrite H1, H100. split; reflexivity.
    + rewrite H0, H0'. split; reflexivity.
Qed.

End RendererProperties.
